(** * super-orm: the SQL query builder of [lib/query.js]

    A shallow embedding of the [QueryBuilder] class: the JavaScript values
    its methods receive, the mutable [_data] record every method updates,
    the helpers it imports from [./utils], and each method as a computation
    that threads the builder and may throw. *)

From Stdlib Require Import List String Ascii ZArith Bool Lia DecimalString.
From Stdlib Require DecimalNat DecimalFacts.
Import ListNotations.

Local Open Scope string_scope.
Local Open Scope Z_scope.

Set Warnings "-register-all".

(** ** JavaScript values *)

Module Js.

(** The values the builder's methods are called with.  Numbers are the
    integer-valued ones; an object is the list of its own enumerable
    properties in enumeration order. *)
Inductive value : Type :=
| VUndefined
| VNull
| VBool (b : bool)
| VNum (n : Z)
| VStr (s : string)
| VArr (items : list value)
| VObj (props : list (string * value)).

Definition dq : string := String (ascii_of_nat 34) EmptyString.
Definition nl : string := String (ascii_of_nat 10) EmptyString.

(** [`"${ s }"`] *)
Definition quoted (s : string) : string := dq ++ s ++ dq.

(** Decimal rendering of an integer-valued number, as a template literal
    prints it while the number is a safe integer: past [MAX_SAFE_INTEGER] a
    number is a rounded double, printed with the shortest digits that
    identify it and, from 1e21 on, with an exponent. *)
Definition num_string (n : Z) : string := NilZero.string_of_int (Z.to_int n).

(** [Number.MAX_SAFE_INTEGER], 2^53 - 1. *)
Definition MAX_SAFE_INTEGER : Z := 9007199254740991.

(** The key of array index [i]. *)
Definition index_key (i : nat) : string := NilZero.string_of_uint (Nat.to_uint i).

(** ToBoolean. *)
Definition truthy (v : value) : bool :=
  match v with
  | VUndefined | VNull => false
  | VBool b => b
  | VNum n => negb (n =? 0)
  | VStr s => negb (s =? "")%string
  | VArr _ | VObj _ => true
  end.

Definition typeof (v : value) : string :=
  match v with
  | VUndefined => "undefined"
  | VNull => "object"
  | VBool _ => "boolean"
  | VNum _ => "number"
  | VStr _ => "string"
  | VArr _ | VObj _ => "object"
  end.

Definition isArray (v : value) : bool :=
  match v with VArr _ => true | _ => false end.

(** ToString, as a template literal [`${ v }`] applies it. *)
Fixpoint toString (v : value) : string :=
  match v with
  | VUndefined => "undefined"
  | VNull => "null"
  | VBool true => "true"
  | VBool false => "false"
  | VNum n => num_string n
  | VStr s => s
  | VArr l =>
      concat "," (map (fun x => match x with
                                | VUndefined | VNull => ""
                                | _ => toString x
                                end) l)
  | VObj _ => "[object Object]"
  end.

(** [`${ o }`] for a field that holds a string or [null]. *)
Definition nullable_string (o : option string) : string :=
  match o with Some s => s | None => "null" end.

Fixpoint chars (s : string) : list value :=
  match s with
  | EmptyString => []
  | String c r => VStr (String c EmptyString) :: chars r
  end.

Definition array_props (l : list value) : list (string * value) :=
  combine (map index_key (seq 0 (List.length l))) l.

(** The own enumerable properties [Object.keys] and [for ... in] walk over;
    [None] where [Object.keys] throws. *)
Definition own_props (v : value) : option (list (string * value)) :=
  match v with
  | VUndefined | VNull => None
  | VBool _ | VNum _ => Some []
  | VStr s => Some (array_props (chars s))
  | VArr l => Some (array_props l)
  | VObj p => Some p
  end.

Fixpoint lookup (k : string) (p : list (string * value)) : option value :=
  match p with
  | [] => None
  | (k', v) :: r => if (k =? k')%string then Some v else lookup k r
  end.

Definition props_of (v : value) : list (string * value) :=
  match own_props v with Some p => p | None => [] end.

(** [k in v] for an index key [k]: no prototype carries one, so the own
    properties decide. *)
Definition has_property (k : string) (v : value) : bool :=
  match lookup k (props_of v) with Some _ => true | None => false end.

(** [v[k]] for an index key or an own property. *)
Definition get (v : value) (k : string) : value :=
  match lookup k (props_of v) with Some x => x | None => VUndefined end.

(** White space and line terminators of the ASCII range. *)
Definition is_space (c : ascii) : bool :=
  let n := nat_of_ascii c in
  (Nat.eqb n 32 || (Nat.leb 9 n && Nat.leb n 13))%bool.

Fixpoint trimStart (s : string) : string :=
  match s with
  | EmptyString => EmptyString
  | String c r => if is_space c then trimStart r else s
  end.

Fixpoint trimEnd (s : string) : string :=
  match s with
  | EmptyString => EmptyString
  | String c r =>
      let r' := trimEnd r in
      if (is_space c && (r' =? "")%string)%bool then EmptyString else String c r'
  end.

(** [String.prototype.trim] *)
Definition trim (s : string) : string := trimEnd (trimStart s).

(** ToNumber on the values the limit helper is handed: [None] is NaN.  A
    string converts when, trimmed, it is empty or a run of decimal digits
    with an optional sign; an array or object converts through its string.
    Other numeric literals are outside the model. *)
Definition digit_val (c : ascii) : option Z :=
  let n := nat_of_ascii c in
  if (Nat.leb 48 n && Nat.leb n 57)%bool then Some (Z.of_nat (n - 48)) else None.

Fixpoint digits_val (acc : Z) (s : string) : option Z :=
  match s with
  | EmptyString => Some acc
  | String c r =>
      match digit_val c with
      | Some d => digits_val (10 * acc + d) r
      | None => None
      end
  end.

Definition string_number (s : string) : option Z :=
  match trim s with
  | EmptyString => Some 0
  | String c r =>
      if Nat.eqb (nat_of_ascii c) 45 then
        match r with
        | EmptyString => None
        | _ => option_map Z.opp (digits_val 0 r)
        end
      else if Nat.eqb (nat_of_ascii c) 43 then
        match r with
        | EmptyString => None
        | _ => digits_val 0 r
        end
      else digits_val 0 (String c r)
  end.

Definition toNumber (v : value) : option Z :=
  match v with
  | VUndefined => None
  | VNull => Some 0
  | VBool b => Some (if b then 1 else 0)
  | VNum n => Some n
  | VStr s => string_number s
  | VArr _ | VObj _ => string_number (toString v)
  end.

(** [v > 0] *)
Definition gt0 (v : value) : bool :=
  match toNumber v with Some n => 0 <? n | None => false end.

End Js.

Import Js.

(** ** The helpers of [./utils] *)

(** [lib/query.js] imports six helpers from [./utils].  The builder is
    written against this interface. *)
Class Utils : Type := {
  sqlEscape : value -> string;
  sqlEscapeId : string -> string;
  sqlFormat : string -> list value -> string;
  sqlFormatObject : string -> list (string * value) -> string;
  sqlUpdateString : value -> string;
  sqlLimitString : value -> value -> string
}.

(** Modelled from the spec: [lib/utils.js] is not part of the sources at
    hand.  The model follows the interface the spec gives for the escaping
    and templating primitives: identifiers are quoted with backticks,
    literals are escaped by kind, [?] is substituted left to right, [:name]
    tokens are substituted from a mapping and left as they are when the
    mapping has no such name, an update mapping renders as assignments
    joined by a comma, and the limit clause follows the four cases of the
    spec's LIMIT computation, a row count that does not compare greater
    than zero counting as absent. *)
Module UtilsModel.

Definition escapeId (name : string) : string := "`" ++ name ++ "`".

Fixpoint escape_chars (s : string) : string :=
  match s with
  | EmptyString => EmptyString
  | String c r =>
      let n := nat_of_ascii c in
      if (Nat.eqb n 39 || Nat.eqb n 92)%bool
      then String (ascii_of_nat 92) (String c (escape_chars r))
      else String c (escape_chars r)
  end.

Fixpoint escape (v : value) : string :=
  match v with
  | VUndefined | VNull => "NULL"
  | VBool true => "true"
  | VBool false => "false"
  | VNum n => num_string n
  | VStr s => "'" ++ escape_chars s ++ "'"
  | VArr l => concat ", " (map escape l)
  | VObj p => concat ", " (map (fun kv => escapeId (fst kv) ++ " = " ++ escape (snd kv)) p)
  end.

Definition is_question (c : ascii) : bool := Nat.eqb (nat_of_ascii c) 63.
Definition is_colon (c : ascii) : bool := Nat.eqb (nat_of_ascii c) 58.

Definition is_name_char (c : ascii) : bool :=
  let n := nat_of_ascii c in
  ((Nat.leb 48 n && Nat.leb n 57) || (Nat.leb 65 n && Nat.leb n 90)
   || (Nat.leb 97 n && Nat.leb n 122) || Nat.eqb n 95)%bool.

Fixpoint format (tpl : string) (values : list value) : string :=
  match tpl with
  | EmptyString => EmptyString
  | String c r =>
      if is_question c then
        match values with
        | v :: vs => escape v ++ format r vs
        | [] => String c (format r [])
        end
      else String c (format r values)
  end.

(** What a [:name] token renders as once its name is complete. *)
Definition resolve (values : list (string * value)) (name : string) : string :=
  match lookup name values with
  | Some v => if (name =? "")%string then ":" else escape v
  | None => ":" ++ name
  end.

(** [pending] is the name read so far after a colon. *)
Fixpoint formatNamed (values : list (string * value)) (pending : option string)
         (tpl : string) : string :=
  match tpl, pending with
  | EmptyString, None => EmptyString
  | EmptyString, Some name => resolve values name
  | String c r, None =>
      if is_colon c then formatNamed values (Some EmptyString) r
      else String c (formatNamed values None r)
  | String c r, Some name =>
      if is_name_char c then formatNamed values (Some (name ++ String c EmptyString)) r
      else resolve values name
           ++ (if is_colon c then formatNamed values (Some EmptyString) r
               else String c (formatNamed values None r))
  end.

Definition formatObject (tpl : string) (values : list (string * value)) : string :=
  formatNamed values None tpl.

Definition updateString (data : value) : string :=
  concat ", " (map (fun kv => escapeId (fst kv) ++ "=" ++ escape (snd kv)) (props_of data)).

Definition MAX_UINT64 : string := "18446744073709551615".

Definition limitString (skip limit : value) : string :=
  if gt0 limit then
    if gt0 skip then "LIMIT " ++ toString skip ++ "," ++ toString limit
    else "LIMIT " ++ toString limit
  else if gt0 skip then "LIMIT " ++ toString skip ++ "," ++ MAX_UINT64
  else "".

End UtilsModel.

(** Modelled from the spec: the helpers of the absent [lib/utils.js],
    gathered as an instance of the interface. *)
Definition model_utils : Utils := {|
  sqlEscape := UtilsModel.escape;
  sqlEscapeId := UtilsModel.escapeId;
  sqlFormat := UtilsModel.format;
  sqlFormatObject := UtilsModel.formatObject;
  sqlUpdateString := UtilsModel.updateString;
  sqlLimitString := UtilsModel.limitString
|}.

(** ** Builder state *)

(** The [_data] object the constructor creates.  [d_orderFields] holds
    whatever [order] was handed; the other fields hold strings, numbers or
    [null].  The object has no property [skip]: reading it gives
    [undefined]. *)
Record data : Type := mkData {
  d_fields : string;
  d_conditions : list string;
  d_type : string;
  d_update : option string;
  d_insert : option string;
  d_delete : option string;
  d_sql : option string;
  d_orderFields : value;
  d_orderBy : string;
  d_skipRows : Z;
  d_limitRows : Z;
  d_limit : string
}.

(** A builder: the table name and the accumulated [_data].  The execution
    callback is only read by [exec] and is left out. *)
Record QueryBuilder : Type := mkQueryBuilder {
  _tableName : string;
  _data : data
}.

Definition with_fields (x : string) (d : data) : data :=
  mkData x (d_conditions d) (d_type d) (d_update d) (d_insert d) (d_delete d) (d_sql d)
         (d_orderFields d) (d_orderBy d) (d_skipRows d) (d_limitRows d) (d_limit d).
Definition with_conditions (x : list string) (d : data) : data :=
  mkData (d_fields d) x (d_type d) (d_update d) (d_insert d) (d_delete d) (d_sql d)
         (d_orderFields d) (d_orderBy d) (d_skipRows d) (d_limitRows d) (d_limit d).
Definition with_type (x : string) (d : data) : data :=
  mkData (d_fields d) (d_conditions d) x (d_update d) (d_insert d) (d_delete d) (d_sql d)
         (d_orderFields d) (d_orderBy d) (d_skipRows d) (d_limitRows d) (d_limit d).
Definition with_update (x : option string) (d : data) : data :=
  mkData (d_fields d) (d_conditions d) (d_type d) x (d_insert d) (d_delete d) (d_sql d)
         (d_orderFields d) (d_orderBy d) (d_skipRows d) (d_limitRows d) (d_limit d).
Definition with_insert (x : option string) (d : data) : data :=
  mkData (d_fields d) (d_conditions d) (d_type d) (d_update d) x (d_delete d) (d_sql d)
         (d_orderFields d) (d_orderBy d) (d_skipRows d) (d_limitRows d) (d_limit d).
Definition with_sql (x : option string) (d : data) : data :=
  mkData (d_fields d) (d_conditions d) (d_type d) (d_update d) (d_insert d) (d_delete d) x
         (d_orderFields d) (d_orderBy d) (d_skipRows d) (d_limitRows d) (d_limit d).
Definition with_orderFields (x : value) (d : data) : data :=
  mkData (d_fields d) (d_conditions d) (d_type d) (d_update d) (d_insert d) (d_delete d) (d_sql d)
         x (d_orderBy d) (d_skipRows d) (d_limitRows d) (d_limit d).
Definition with_orderBy (x : string) (d : data) : data :=
  mkData (d_fields d) (d_conditions d) (d_type d) (d_update d) (d_insert d) (d_delete d) (d_sql d)
         (d_orderFields d) x (d_skipRows d) (d_limitRows d) (d_limit d).
Definition with_skipRows (x : Z) (d : data) : data :=
  mkData (d_fields d) (d_conditions d) (d_type d) (d_update d) (d_insert d) (d_delete d) (d_sql d)
         (d_orderFields d) (d_orderBy d) x (d_limitRows d) (d_limit d).
Definition with_limitRows (x : Z) (d : data) : data :=
  mkData (d_fields d) (d_conditions d) (d_type d) (d_update d) (d_insert d) (d_delete d) (d_sql d)
         (d_orderFields d) (d_orderBy d) (d_skipRows d) x (d_limit d).
Definition with_limit (x : string) (d : data) : data :=
  mkData (d_fields d) (d_conditions d) (d_type d) (d_update d) (d_insert d) (d_delete d) (d_sql d)
         (d_orderFields d) (d_orderBy d) (d_skipRows d) (d_limitRows d) x.

(** ** Methods as computations on the builder *)

Inductive error : Type :=
| AssertionError (message : string)
| TypeError (message : string)
| Error (message : string).

Inductive outcome (A : Type) : Type :=
| Return (a : A)
| Throw (e : error).
Arguments Return {A} a.
Arguments Throw {A} e.

(** A method call: it runs on the builder, returns or throws, and leaves
    the builder as its assignments made it, also when it throws. *)
Definition M (A : Type) : Type := QueryBuilder -> outcome A * QueryBuilder.

Definition ret {A} (a : A) : M A := fun b => (Return a, b).
Definition throw {A} (e : error) : M A := fun b => (Throw e, b).
Definition bind {A B} (m : M A) (k : A -> M B) : M B :=
  fun b => match m b with
           | (Return a, b') => k a b'
           | (Throw e, b') => (Throw e, b')
           end.

Declare Scope js_scope.
Delimit Scope js_scope with js.
Notation "x <- m ;; k" := (bind m (fun x => k))
  (at level 61, m at next level, right associativity) : js_scope.
Notation "m ;; k" := (bind m (fun _ => k))
  (at level 61, right associativity) : js_scope.
Local Open Scope js_scope.

(** [this._data] *)
Definition this_data : M data := fun b => (Return (_data b), b).
Definition this_tableName : M string := fun b => (Return (_tableName b), b).

(** An assignment to a field of [this._data]. *)
Definition assign (f : data -> data) : M unit :=
  fun b => (Return tt, mkQueryBuilder (_tableName b) (f (_data b))).

(** [assert.ok(value, message)] *)
Definition assert_ok (c : bool) (message : string) : M unit :=
  if c then ret tt else throw (AssertionError message).

Fixpoint mapM {A B} (f : A -> M B) (l : list A) : M (list B) :=
  match l with
  | [] => ret []
  | x :: r => y <- f x ;; ys <- mapM f r ;; ret (y :: ys)
  end.

Fixpoint forEach {A} (f : A -> M unit) (l : list A) : M unit :=
  match l with
  | [] => ret tt
  | x :: r => f x ;; forEach f r
  end.

(** The builder after a call, and what the call returned. *)
Definition after {A} (m : M A) (b : QueryBuilder) : QueryBuilder := snd (m b).
Definition result {A} (m : M A) (b : QueryBuilder) : outcome A := fst (m b).

Definition initial_data : data := {|
  d_fields := "*";
  d_conditions := [];
  d_type := "";
  d_update := None;
  d_insert := None;
  d_delete := None;
  d_sql := None;
  d_orderFields := VStr "";
  d_orderBy := "";
  d_skipRows := 0;
  d_limitRows := 0;
  d_limit := ""
|}.

(** [new QueryBuilder(options)].  No value of the model is a function, so
    an [exec] option that is given and truthy fails the constructor's check
    on it; the builder returned has no execution callback. *)
Definition constructor (options : value) : outcome QueryBuilder :=
  let options := if truthy options then props_of options else [] in
  let table := match lookup "table" options with Some v => v | None => VUndefined end in
  let exec := match lookup "exec" options with Some v => v | None => VUndefined end in
  if negb (truthy table) then Throw (AssertionError "must provide table name")
  else if negb (typeof table =? "string")%string
       then Throw (AssertionError "table name must be a string")
  else if truthy exec
       then Throw (AssertionError "exec callback must be a function")
  else Return {| _tableName := toString table; _data := initial_data |}.

(** [createQueryBuilder({ table })] for a table name that passes the
    constructor's checks. *)
Definition createQueryBuilder (table : string) : QueryBuilder :=
  {| _tableName := table; _data := initial_data |}.

Section Methods.

Context {U : Utils}.

(** The guard every statement method starts with. *)
Definition assert_type_unset : M unit :=
  d <- this_data ;;
  assert_ok (d_type d =? "")%string
            ("cannot change query type after it was set to " ++ quoted (d_type d)).

Definition format (tpl values : value) : M string :=
  assert_ok (typeof tpl =? "string")%string "first parameter must be a string" ;;
  assert_ok (truthy values && (isArray values || (typeof values =? "object")%string))
            "second parameter must be an array or object" ;;
  match values with
  | VArr l => ret (sqlFormat (toString tpl) l)
  | _ => ret (sqlFormatObject (toString tpl) (props_of values))
  end.

Definition push_condition (c : string) : M unit :=
  assign (fun d => with_conditions (d_conditions d ++ [c]) d).

Definition where_ (condition values : value) : M unit :=
  let t := typeof condition in
  assert_ok (truthy condition) "missing condition" ;;
  assert_ok ((t =? "string") || (t =? "object"))%string
            "condition must be a string or object" ;;
  if (t =? "string")%string then
    c <- format condition (if truthy values then values else VArr []) ;;
    push_condition c
  else
    forEach (fun name =>
               push_condition (sqlEscapeId name ++ "=" ++ sqlEscape (get condition name)))
            (map fst (props_of condition)).

Definition select (args : list value) : M unit :=
  assert_type_unset ;;
  assign (with_type "SELECT") ;;
  names <- mapM (fun name =>
                   assert_ok (truthy name && (typeof name =? "string")%string)
                             "field name must be a string" ;;
                   ret (sqlEscapeId (toString name))) args ;;
  assign (with_fields (concat ", " names)).

Definition update (update values : value) : M unit :=
  assert_type_unset ;;
  assign (with_type "UPDATE") ;;
  let t := typeof update in
  assert_ok (truthy update) "missing update data" ;;
  assert_ok ((t =? "string") || (t =? "object"))%string
            "first parameter must be a string or array" ;;
  if (t =? "string")%string then
    s <- format update (if truthy values then values else VArr []) ;;
    assign (with_update (Some s))
  else
    assign (with_update (Some (sqlUpdateString update))).

Definition insert (data : value) : M unit :=
  assert_type_unset ;;
  assign (with_type "INSERT") ;;
  assert_ok (truthy data) "missing data" ;;
  assert_ok (typeof data =? "object")%string "data must be an object or array" ;;
  data <- match data with
          | VArr l =>
              assert_ok (1 <=? Z.of_nat (List.length l))
                        "data array must at least have 1 item" ;;
              ret l
          | _ => ret [data]
          end ;;
  keys <- match own_props (nth 0 data VUndefined) with
          | Some p => ret (map fst p)
          | None => throw (TypeError "Cannot convert undefined or null to object")
          end ;;
  let fields := map sqlEscapeId keys in
  values <- mapM (fun item =>
      assert_ok (truthy item && (typeof item =? "object")%string)
                "every item of data array must be an object" ;;
      line <- mapM (fun field =>
                      assert_ok (has_property field item)
                                ("every item of data array must have field "
                                   ++ quoted field) ;;
                      ret (sqlEscape (get item field)))
                   (map index_key (seq 0 (List.length fields))) ;;
      ret ("(" ++ concat ", " line ++ ")")) data ;;
  assign (with_insert
            (Some ("(" ++ concat ", " fields ++ ") VALUES " ++ concat ("," ++ nl) values))).

Definition delete : M unit :=
  assert_type_unset ;;
  assign (with_type "DELETE").

Definition sql (sql : string) : M unit :=
  assert_type_unset ;;
  assign (with_type "CUSTOM") ;;
  d <- this_data ;;
  assign (with_sql (Some (sqlFormatObject sql
                            [("orderBy", VStr (d_orderBy d));
                             ("limit", VStr (d_limit d));
                             ("fields", VStr (d_fields d));
                             ("skipRows", VNum (d_skipRows d));
                             ("limitRows", VNum (d_limitRows d))]))).

Definition order (tpl values : value) : M unit :=
  (if truthy values then
     s <- format tpl values ;;
     assign (with_orderFields (VStr s))
   else
     assign (with_orderFields tpl)) ;;
  d <- this_data ;;
  assign (with_orderBy ("ORDER BY " ++ toString (d_orderFields d))).

(** [this._data.skip] is [undefined]; [this._data.limit] is the stored
    clause. *)
Definition skip (rows : Z) : M unit :=
  assert_ok (0 <=? rows) "rows must >= 0" ;;
  assign (with_skipRows rows) ;;
  d <- this_data ;;
  assign (with_limit (sqlLimitString VUndefined (VStr (d_limit d)))).

Definition limit (rows : Z) : M unit :=
  assert_ok (0 <=? rows) "rows must >= 0" ;;
  assign (with_limitRows rows) ;;
  d <- this_data ;;
  assign (with_limit (sqlLimitString VUndefined (VStr (d_limit d)))).

Definition build : M string :=
  d <- this_data ;;
  tableName <- this_tableName ;;
  let t := sqlEscapeId tableName in
  let w := concat " AND " (d_conditions d) in
  let limit := if 0 <? d_limitRows d then "LIMIT " ++ num_string (d_limitRows d) else "" in
  sql <- (if (d_type d =? "SELECT")%string then
            ret ("SELECT " ++ d_fields d ++ " FROM " ++ t ++ " WHERE " ++ w ++ " "
                   ++ d_orderBy d ++ " " ++ d_limit d)
          else if (d_type d =? "INSERT")%string then
            ret ("INSERT INTO " ++ t ++ " " ++ nullable_string (d_insert d))
          else if (d_type d =? "UPDATE")%string then
            ret ("UPDATE " ++ t ++ " SET " ++ nullable_string (d_update d) ++ " WHERE " ++ w
                   ++ " " ++ limit)
          else if (d_type d =? "DELETE")%string then
            ret ("DELETE FROM " ++ t ++ " WHERE " ++ w ++ " " ++ limit)
          else if (d_type d =? "CUSTOM")%string then
            match d_sql d with
            | Some s => ret s
            | None => throw (TypeError "Cannot read properties of null (reading 'trim')")
            end
          else throw (Error ("invalid query type " ++ quoted (d_type d)))) ;;
  ret (trim sql).

(** *** Calls, as a caller issues them *)

(** The methods that establish the statement kind. *)
Inductive statement : Type :=
| Select (args : list value)
| Update (data values : value)
| Insert (data : value)
| Delete
| Sql (tpl : string).

(** The methods that add clauses. *)
Inductive modifier : Type :=
| Where (condition values : value)
| Order (tpl values : value)
| Skip (rows : Z)
| Limit (rows : Z).

Inductive call : Type :=
| Statement (s : statement)
| Modifier (m : modifier)
| Build.

Definition establish (s : statement) : M unit :=
  match s with
  | Select args => select args
  | Update data values => update data values
  | Insert data => insert data
  | Delete => delete
  | Sql tpl => sql tpl
  end.

(** The kind a statement method assigns. *)
Definition kind (s : statement) : string :=
  match s with
  | Select _ => "SELECT"
  | Update _ _ => "UPDATE"
  | Insert _ => "INSERT"
  | Delete => "DELETE"
  | Sql _ => "CUSTOM"
  end.

Definition modify (m : modifier) : M unit :=
  match m with
  | Where condition values => where_ condition values
  | Order tpl values => order tpl values
  | Skip rows => skip rows
  | Limit rows => limit rows
  end.

(** The builder after one call, whether it returned or threw. *)
Definition invoke (c : call) (b : QueryBuilder) : QueryBuilder :=
  match c with
  | Statement s => after (establish s) b
  | Modifier m => after (modify m) b
  | Build => after build b
  end.

(** The builder after a sequence of calls, each one issued whatever the
    previous ones did. *)
Definition invoke_all (cs : list call) (b : QueryBuilder) : QueryBuilder :=
  fold_left (fun b c => invoke c b) cs b.

(** A fluent chain of modifiers: it stops at the first one that throws. *)
Definition chain (ms : list modifier) : M unit := forEach modify ms.

End Methods.

(** The message of the guard on the statement kind. *)
Definition kind_already_set (type : string) : error :=
  AssertionError ("cannot change query type after it was set to " ++ quoted type).

(** The kind of a builder. *)
Definition type_of (b : QueryBuilder) : string := d_type (_data b).

(** A computation leaves an observation [P] of the builder as it was. *)
Definition preserves {T A : Type} (P : QueryBuilder -> T) (m : M A) : Prop :=
  forall b, P (after m b) = P b.

(** ** Fixtures of [test/test_query.js] *)

Definition test1 : QueryBuilder := createQueryBuilder "test1".

(** [{ a: 123, b: 456 }] *)
Definition a123_b456 : value := VObj [("a", VNum 123); ("b", VNum 456)].

(** [.select('name', 'age')] *)
Definition name_age : list value := [VStr "name"; VStr "age"].

(** ** Views of the builder *)

(** The builder with [f] applied to its [_data]. *)
Definition set_data (f : data -> data) (b : QueryBuilder) : QueryBuilder :=
  mkQueryBuilder (_tableName b) (f (_data b)).

(** The fields [select], [update], [insert] and [delete] read or assign. *)
Definition statement_side (b : QueryBuilder) : string * string * option string * option string :=
  let d := _data b in (d_fields d, d_type d, d_update d, d_insert d).

(** The fields [where], [order], [skip] and [limit] read or assign. *)
Definition modifier_side (b : QueryBuilder)
  : list string * value * string * Z * Z * string :=
  let d := _data b in
  (d_conditions d, d_orderFields d, d_orderBy d, d_skipRows d, d_limitRows d, d_limit d).

(** What neither group assigns. *)
Definition fixed_side (b : QueryBuilder) : string * option string * option string :=
  (_tableName b, d_sql (_data b), d_delete (_data b)).

(** Two computations that, run on builders with the same observation [P],
    return the same and leave the same observation. *)
Definition agrees {T A : Type} (P : QueryBuilder -> T) (m m' : M A) : Prop :=
  forall b b', P b = P b' ->
    result m b = result m' b' /\ P (after m b) = P (after m' b').

(** A computation that reads and assigns within the observation [P]. *)
Definition local {T A : Type} (P : QueryBuilder -> T) (m : M A) : Prop := agrees P m m.

(** A computation that leaves the builder as it was whenever it throws. *)
Definition atomic {A : Type} (m : M A) : Prop :=
  forall b e, result m b = Throw e -> after m b = b.


(** A computation that only appends to the conditions. *)
Definition appends {A : Type} (m : M A) : Prop :=
  forall b, exists added,
    d_conditions (_data (after m b)) = (d_conditions (_data b) ++ added)%list.

(** ** The field formatters and the schema of [lib/schema.js] *)

Module Schema.

(** [String.prototype.toLowerCase] on the ASCII range. *)
Definition lower (c : ascii) : ascii :=
  let n := nat_of_ascii c in
  if (Nat.leb 65 n && Nat.leb n 90)%bool then ascii_of_nat (n + 32) else c.

Fixpoint toLowerCase (s : string) : string :=
  match s with
  | EmptyString => EmptyString
  | String c r => String (lower c) (toLowerCase r)
  end.

Definition boolInputFormatter (v : value) : value :=
  match v with
  | VBool false | VUndefined | VNull => VNum 0
  | _ =>
      let v := toLowerCase (toString v) in
      if (v =? "")%string then VNum 0
      else if (v =? "no")%string then VNum 0
      else if (v =? "off")%string then VNum 0
      else if (v =? "false")%string then VNum 0
      else VNum 1
  end.

Definition boolOutputFormatter (v : value) : value := VBool (truthy v).

Definition dateInputEncoder (v : value) : value := v.

(** A formatter of a field: a function of the value that may throw. *)
Definition formatter : Type := value -> outcome value.

(** The configuration of a field: the formatters it has. *)
Record field_info : Type := mkFieldInfo {
  input : option formatter;
  output : option formatter;
  encode : option formatter;
  decode : option formatter
}.

Definition getDefaultFieldInfo : field_info := mkFieldInfo None None None None.

Section ByType.

(** [JSON.stringify], [JSON.parse] (the value parsed, or the message of the
    error thrown) and [new Date(v)] are taken as given. *)
Variable JSON_stringify : value -> value.
Variable JSON_parse : string -> value + string.
Variable Date_new : value -> value.

Definition jsonInputFormatter (v : value) : value := JSON_stringify v.

Definition jsonOutputFormatter (v : value) : outcome value :=
  match v with
  | VUndefined => Return VUndefined
  | VNull => Return (VObj [])
  | VStr s =>
      if (s =? "")%string then Return (VObj [])
      else match JSON_parse s with
           | inl x => Return x
           | inr message =>
               Throw (TypeError ("jsonOutputFormatter: fail to parse JSON: " ++ message))
           end
  | _ => Throw (TypeError ("jsonOutputFormatter: invalid input type: " ++ toString v))
  end.

Definition dateOutputDecoder (v : value) : value := Date_new v.

Definition getFieldInfoByType (type : string) : outcome field_info :=
  let t := toLowerCase type in
  if (t =? "json")%string then
    Return (mkFieldInfo (Some (fun v => Return (jsonInputFormatter v)))
                        (Some jsonOutputFormatter) None None)
  else if (t =? "bool")%string then
    Return (mkFieldInfo (Some (fun v => Return (boolInputFormatter v)))
                        (Some (fun v => Return (boolOutputFormatter v))) None None)
  else if (t =? "date")%string then
    Return (mkFieldInfo None None (Some (fun v => Return (dateInputEncoder v)))
                        (Some (fun v => Return (dateOutputDecoder v))))
  else Throw (TypeError ("not support type " ++ quoted type)).

End ByType.

(** The configuration [getFieldInfoByType('bool')] returns. *)
Definition bool_field : field_info :=
  mkFieldInfo (Some (fun v => Return (boolInputFormatter v)))
              (Some (fun v => Return (boolOutputFormatter v))) None None.

(** The names every object inherits from [Object.prototype]. *)
Definition inherited (name : string) : bool :=
  existsb (String.eqb name)
          ["constructor"; "__defineGetter__"; "__defineSetter__"; "hasOwnProperty";
           "__lookupGetter__"; "__lookupSetter__"; "isPrototypeOf";
           "propertyIsEnumerable"; "toString"; "valueOf"; "__proto__";
           "toLocaleString"].

(** What [this._fields[name]] finds: a configuration the schema declares,
    a member of [Object.prototype] (truthy, with no formatter), or
    nothing. *)
Inductive field : Type :=
| Declared (info : field_info)
| Inherited
| Undeclared.

Fixpoint declared (fields : list (string * field_info)) (name : string)
  : option field_info :=
  match fields with
  | [] => None
  | (k, info) :: r => if (name =? k)%string then Some info else declared r name
  end.

Definition fields_get (fields : list (string * field_info)) (name : string) : field :=
  match declared fields name with
  | Some info => Declared info
  | None => if inherited name then Inherited else Undeclared
  end.

Fixpoint set_prop (name : string) (v : value) (o : list (string * value))
  : list (string * value) :=
  match o with
  | [] => [(name, v)]
  | (k, x) :: r =>
      if (k =? name)%string then (k, v) :: r else (k, x) :: set_prop name v r
  end.

(** [ret[name] = v] on an object literal: an assignment to [__proto__]
    creates no property of the object. *)
Definition assign_prop (name : string) (v : value) (o : list (string * value))
  : list (string * value) :=
  if (name =? "__proto__")%string then o else set_prop name v o.

Definition call_formatter (f : option formatter) (v : value) : outcome value :=
  match f with
  | Some f => f v
  | None => Throw (TypeError "field.input is not a function")
  end.

(** One turn of the loop of [formatInput]. *)
Definition formatInput_step (fields : list (string * field_info)) (data : value)
           (ret : outcome (list (string * value))) (name : string)
  : outcome (list (string * value)) :=
  match ret with
  | Throw e => Throw e
  | Return ret =>
      match fields_get fields name with
      | Undeclared => Return ret
      | Inherited => Return (assign_prop name (get data name) ret)
      | Declared info =>
          match output info with
          | Some _ =>
              match call_formatter (input info) (get data name) with
              | Return x => Return (assign_prop name x ret)
              | Throw e => Throw e
              end
          | None => Return (assign_prop name (get data name) ret)
          end
      end
  end.

Definition formatInput (fields : list (string * field_info)) (data : value)
  : outcome (list (string * value)) :=
  fold_left (formatInput_step fields data) (map fst (props_of data)) (Return []).

(** One turn of the loop of [formatOutput]. *)
Definition formatOutput_step (fields : list (string * field_info)) (data : value)
           (ret : outcome (list (string * value))) (name : string)
  : outcome (list (string * value)) :=
  match ret with
  | Throw e => Throw e
  | Return ret =>
      match fields_get fields name with
      | Declared {| output := Some f |} =>
          match f (get data name) with
          | Return x => Return (assign_prop name x ret)
          | Throw e => Throw e
          end
      | _ => Return (assign_prop name (get data name) ret)
      end
  end.

Definition formatOutput (fields : list (string * field_info)) (data : value)
  : outcome (list (string * value)) :=
  fold_left (formatOutput_step fields data) (map fst (props_of data)) (Return []).

Fixpoint map_outcome {A B} (f : A -> outcome B) (l : list A) : outcome (list B) :=
  match l with
  | [] => Return []
  | x :: r =>
      match f x with
      | Throw e => Throw e
      | Return y =>
          match map_outcome f r with
          | Throw e => Throw e
          | Return ys => Return (y :: ys)
          end
      end
  end.

(** [list.map(item => this.formatInput(item))] *)
Definition formatInputList (fields : list (string * field_info)) (list : list value)
  : outcome (Datatypes.list (Datatypes.list (string * value))) :=
  map_outcome (formatInput fields) list.

Definition formatOutputList (fields : list (string * field_info)) (list : list value)
  : outcome (Datatypes.list (Datatypes.list (string * value))) :=
  map_outcome (formatOutput fields) list.

(** *** The loops, entry by entry *)

(** What the loop of [formatInput] does with the property [name]: the value
    it stores, or nothing. *)
Definition input_entry (fields : list (string * field_info)) (data : value)
           (name : string) : outcome (option value) :=
  match fields_get fields name with
  | Undeclared => Return None
  | Inherited => Return (Some (get data name))
  | Declared info =>
      match output info with
      | Some _ =>
          match call_formatter (input info) (get data name) with
          | Return x => Return (Some x)
          | Throw e => Throw e
          end
      | None => Return (Some (get data name))
      end
  end.

(** What the loop of [formatOutput] stores for the property [name]. *)
Definition output_entry (fields : list (string * field_info)) (data : value)
           (name : string) : outcome (option value) :=
  match fields_get fields name with
  | Declared {| output := Some f |} =>
      match f (get data name) with
      | Return x => Return (Some x)
      | Throw e => Throw e
      end
  | _ => Return (Some (get data name))
  end.

(** The properties stored for a list of names, in order, up to the first
    formatter that throws. *)
Fixpoint collect (g : string -> outcome (option value)) (names : list string)
  : outcome (list (string * value)) :=
  match names with
  | [] => Return []
  | name :: r =>
      match g name with
      | Throw e => Throw e
      | Return x =>
          match collect g r with
          | Throw e => Throw e
          | Return ys =>
              Return (match x with Some v => (name, v) :: ys | None => ys end)
          end
      end
  end.

(** A field the schema knows: declared, or named like a member of
    [Object.prototype]. *)
Definition known (fields : list (string * field_info)) (name : string) : bool :=
  match fields_get fields name with Undeclared => false | _ => true end.

(** [{ id: true, active: 'bool' }] as a table of fields. *)
Definition id_active : list (string * field_info) :=
  [("id", getDefaultFieldInfo); ("active", bool_field)].

End Schema.

(** ** What a computation leaves untouched *)

Lemma bind_return {A B} (m : M A) (k : A -> M B) (b b' : QueryBuilder) (a : A) :
  m b = (Return a, b') -> bind m k b = k a b'.
Proof. intro H. unfold bind. rewrite H. reflexivity. Qed.

Section Frame.

Context {T : Type} (P : QueryBuilder -> T).

Lemma preserves_ret {A} (a : A) : preserves P (ret a).
Proof. intro b. reflexivity. Qed.

Lemma preserves_throw {A} (e : error) : preserves P (@throw A e).
Proof. intro b. reflexivity. Qed.

Lemma preserves_assert_ok (c : bool) (message : string) :
  preserves P (assert_ok c message).
Proof. intro b. destruct c; reflexivity. Qed.

Lemma preserves_this_data : preserves P this_data.
Proof. intro b. reflexivity. Qed.

Lemma preserves_this_tableName : preserves P this_tableName.
Proof. intro b. reflexivity. Qed.

Lemma preserves_bind {A B} (m : M A) (k : A -> M B) :
  preserves P m -> (forall a, preserves P (k a)) -> preserves P (bind m k).
Proof.
  intros Hm Hk b. unfold after, bind.
  specialize (Hm b). unfold after in Hm.
  destruct (m b) as [[a | e] b'] eqn:E; simpl in *.
  - rewrite <- Hm. apply (Hk a b').
  - exact Hm.
Qed.

Lemma preserves_mapM {A B} (f : A -> M B) (l : list A) :
  (forall x, preserves P (f x)) -> preserves P (mapM f l).
Proof.
  intro Hf. induction l as [| x r IH]; simpl.
  - apply preserves_ret.
  - apply preserves_bind; [apply Hf |].
    intro y. apply preserves_bind; [exact IH |].
    intro ys. apply preserves_ret.
Qed.

Lemma preserves_forEach {A} (f : A -> M unit) (l : list A) :
  (forall x, preserves P (f x)) -> preserves P (forEach f l).
Proof.
  intro Hf. induction l as [| x r IH]; simpl.
  - apply preserves_ret.
  - apply preserves_bind; [apply Hf | intros _; exact IH].
Qed.

Lemma preserves_assign (f : data -> data) :
  (forall t d, P (mkQueryBuilder t (f d)) = P (mkQueryBuilder t d)) ->
  preserves P (assign f).
Proof. intros Hf [t d]. apply Hf. Qed.

End Frame.

(** Splits a computation along its binds and branches. *)
Ltac frame :=
  repeat first
    [ apply preserves_ret
    | apply preserves_throw
    | apply preserves_assert_ok
    | apply preserves_this_data
    | apply preserves_this_tableName
    | apply preserves_bind; [| intro ]
    | apply preserves_mapM; intro
    | apply preserves_forEach; intro
    | apply preserves_assign; intros; reflexivity
    | match goal with
      | |- preserves _ (if ?c then _ else _) => destruct c
      | |- preserves _ (match ?x with _ => _ end) => destruct x
      end ].

Section Properties.

Context {U : Utils}.

Lemma preserves_format {T} (P : QueryBuilder -> T) (tpl values : value) :
  preserves P (format tpl values).
Proof. unfold format. frame. Qed.

(** [build] assigns nothing. *)
Lemma build_frame : preserves (fun b => b) build.
Proof. unfold build. frame. Qed.

(** No modifier touches the statement kind or the stored custom SQL. *)
Lemma modify_keeps_statement (m : modifier) :
  preserves (fun b => (d_type (_data b), d_sql (_data b))) (modify m).
Proof.
  destruct m; simpl;
    unfold where_, order, skip, limit, push_condition;
    frame; apply preserves_format.
Qed.

Lemma modify_keeps_type (m : modifier) : preserves type_of (modify m).
Proof.
  intro b. pose proof (modify_keeps_statement m b) as H.
  unfold type_of. congruence.
Qed.

(** The guard: on a builder whose kind is set, a statement method throws
    before it assigns anything. *)
Lemma establish_guard (s : statement) (b : QueryBuilder) :
  type_of b <> "" ->
  establish s b = (Throw (kind_already_set (type_of b)), b).
Proof.
  intro H. apply String.eqb_neq in H. unfold type_of in H.
  destruct s; simpl;
    unfold select, update, insert, delete, sql, assert_type_unset, bind, this_data,
           assert_ok; simpl; rewrite H; reflexivity.
Qed.

(** What follows the assignment of the kind in a statement method leaves
    the kind as assigned. *)
Lemma establish_sets_type (s : statement) (b : QueryBuilder) :
  type_of b = "" -> type_of (after (establish s) b) = kind s.
Proof.
  intro H. unfold type_of in H.
  assert (G : forall (k : string) (rest : M unit),
             preserves type_of rest ->
             type_of (after (assert_type_unset ;; assign (with_type k) ;; rest) b) = k).
  { intros k rest Hr. unfold after, bind at 1, assert_type_unset, bind at 1, this_data,
      assert_ok; simpl. rewrite H; simpl.
    unfold bind, assign; simpl.
    specialize (Hr (mkQueryBuilder (_tableName b) (with_type k (_data b)))).
    unfold after in Hr.
    destruct (rest _) as [[[] | e] b'] eqn:E; simpl in *; rewrite Hr; reflexivity. }
  destruct s; simpl.
  - apply G. frame.
  - apply G. frame; apply preserves_format.
  - apply G. frame.
  - unfold delete. specialize (G "DELETE" (ret tt) (preserves_ret _ _)).
    unfold after, bind, assert_type_unset, this_data, assert_ok, bind, assign, ret in *.
    simpl in *. rewrite H in *. simpl in *. exact G.
  - apply G. frame.
Qed.

End Properties.

(** ** The statement kind *)

Section Kind.

Context {U : Utils}.

Lemma build_keeps_builder (b : QueryBuilder) : after build b = b.
Proof. exact (build_frame b). Qed.

Lemma invoke_keeps_type (c : call) (b : QueryBuilder) :
  type_of b <> "" -> type_of (invoke c b) = type_of b.
Proof.
  intro H. destruct c as [s | m |]; simpl.
  - unfold after. rewrite (establish_guard s b H). reflexivity.
  - apply modify_keeps_type.
  - rewrite build_keeps_builder. reflexivity.
Qed.

Lemma invoke_all_keeps_type (cs : list call) (b : QueryBuilder) :
  type_of b <> "" -> type_of (invoke_all cs b) = type_of b.
Proof.
  unfold invoke_all. revert b.
  induction cs as [| c cs IH]; intros b H; simpl.
  - reflexivity.
  - rewrite IH.
    + apply invoke_keeps_type, H.
    + rewrite (invoke_keeps_type c b H). exact H.
Qed.

Lemma kind_not_empty (s : statement) : kind s <> "".
Proof. destruct s; discriminate. Qed.

(** C6: the kind of a builder leaves the unset state at most once.  On a
    builder whose kind is unset, each of [select], [update], [insert],
    [delete] and [sql] assigns its own kind; on a builder whose kind is
    set, each of them throws the assertion error of the guard and leaves
    the whole builder, the kind included, as it was, whichever two kinds
    are combined; and no sequence of calls of any methods changes a kind
    once it is set. *)
Theorem kind_set_at_most_once (s : statement) (b : QueryBuilder) :
  (type_of b = "" -> type_of (after (establish s) b) = kind s /\ kind s <> "") /\
  (type_of b <> "" ->
     establish s b = (Throw (kind_already_set (type_of b)), b) /\
     forall cs, type_of (invoke_all cs b) = type_of b).
Proof.
  split.
  - intro H. split; [apply establish_sets_type, H | apply kind_not_empty].
  - intro H. split; [apply establish_guard, H |].
    intro cs. apply invoke_all_keeps_type, H.
Qed.

(** C9: a statement method that fails its validation has already assigned
    the kind.  On a builder whose kind is unset, [update] with a missing
    (or otherwise falsy) payload or with one that is neither a string nor
    an object throws, and so does [insert] with missing data or an empty
    array; the builder is left with kind UPDATE, respectively INSERT, and
    every later statement method throws on it. *)
Theorem failed_validation_has_set_kind (b : QueryBuilder) :
  type_of b = "" ->
  (forall data values,
      truthy data = false \/ (typeof data <> "string" /\ typeof data <> "object") ->
      let b' := after (update data values) b in
      result (update data values) b
        = Throw (AssertionError (if truthy data
                                 then "first parameter must be a string or array"
                                 else "missing update data")) /\
      type_of b' = "UPDATE" /\
      forall s, establish s b' = (Throw (kind_already_set "UPDATE"), b')) /\
  (forall data,
      truthy data = false \/ data = VArr [] ->
      let b' := after (insert data) b in
      result (insert data) b
        = Throw (AssertionError (if truthy data
                                 then "data array must at least have 1 item"
                                 else "missing data")) /\
      type_of b' = "INSERT" /\
      forall s, establish s b' = (Throw (kind_already_set "INSERT"), b')).
Proof.
  intro H.
  assert (later : forall k b', type_of b' = k -> k <> "" ->
            forall s, establish s b' = (Throw (kind_already_set k), b')).
  { intros k b' Hk Hne s. rewrite <- Hk. apply establish_guard. congruence. }
  split.
  - intros data values Hbad b'.
    assert (Ht : type_of b' = "UPDATE").
    { apply (establish_sets_type (Update data values) b H). }
    split; [| split; [exact Ht | apply later; [exact Ht | discriminate]]].
    unfold result, update, bind at 1, assert_type_unset, bind at 1, this_data, assert_ok.
    unfold type_of in H. simpl. rewrite H. simpl.
    unfold bind at 1. simpl.
    destruct (truthy data) eqn:Etr.
    + destruct Hbad as [Hf | [Hs Ho]]; [discriminate |].
      apply String.eqb_neq in Hs, Ho.
      unfold bind, assert_ok, ret. simpl. rewrite Hs, Ho. reflexivity.
    + reflexivity.
  - intros data Hbad b'.
    assert (Ht : type_of b' = "INSERT").
    { apply (establish_sets_type (Insert data) b H). }
    split; [| split; [exact Ht | apply later; [exact Ht | discriminate]]].
    unfold result, insert, bind at 1, assert_type_unset, bind at 1, this_data, assert_ok.
    unfold type_of in H. simpl. rewrite H. simpl.
    unfold bind at 1. simpl.
    destruct (truthy data) eqn:Etr.
    + destruct Hbad as [Hf | ->]; [discriminate |]. reflexivity.
    + reflexivity.
Qed.

End Kind.

(** ** Pagination and rendering *)

Section Rendering.

Context {U : Utils}.

(** What [skip] and [limit] store as the clause: the helper applied to the
    missing [skip] property and the clause stored before, whatever the row
    counts are. *)
Lemma skip_stores (b : QueryBuilder) (n : Z) :
  0 <= n ->
  skip n b = (Return tt,
              mkQueryBuilder (_tableName b)
                (with_limit (sqlLimitString VUndefined (VStr (d_limit (_data b))))
                   (with_skipRows n (_data b)))).
Proof.
  intro H. apply Z.leb_le in H.
  unfold skip, bind, assert_ok, assign, this_data, ret. rewrite H. reflexivity.
Qed.

Lemma limit_stores (b : QueryBuilder) (n : Z) :
  0 <= n ->
  limit n b = (Return tt,
               mkQueryBuilder (_tableName b)
                 (with_limit (sqlLimitString VUndefined (VStr (d_limit (_data b))))
                    (with_limitRows n (_data b)))).
Proof.
  intro H. apply Z.leb_le in H.
  unfold limit, bind, assert_ok, assign, this_data, ret. rewrite H. reflexivity.
Qed.

(** The clause [skip] stores does not depend on the number of rows. *)
Lemma skip_clause_ignores_rows (b : QueryBuilder) (n n' : Z) :
  0 <= n -> 0 <= n' ->
  d_limit (_data (after (skip n) b)) = d_limit (_data (after (skip n') b)).
Proof.
  intros H H'. unfold after. rewrite (skip_stores b n H), (skip_stores b n' H').
  reflexivity.
Qed.

(** The two orders of the pagination calls: [skip(n)] then [limit(m)] and
    [limit(m)] then [skip(n)], for non-negative [n] and [m], both return
    and leave the same builder, so a [build()] that follows returns the
    same SQL, or throws the same error, after either order. *)
Theorem skip_limit_commute (b : QueryBuilder) (n m : Z) :
  0 <= n -> 0 <= m ->
  (skip n ;; limit m) b = (limit m ;; skip n) b /\
  result (skip n ;; limit m) b = Return tt /\
  d_limit (_data (after (skip n ;; limit m) b))
    = d_limit (_data (after (limit m ;; skip n) b)) /\
  (skip n ;; limit m ;; build) b = (limit m ;; skip n ;; build) b.
Proof.
  intros Hn Hm.
  assert (E : (skip n ;; limit m) b = (limit m ;; skip n) b).
  { rewrite (bind_return _ _ _ _ _ (skip_stores b n Hn)).
    rewrite (bind_return _ _ _ _ _ (limit_stores b m Hm)).
    rewrite limit_stores, skip_stores by assumption. reflexivity. }
  repeat split.
  - exact E.
  - unfold result. rewrite (bind_return _ _ _ _ _ (skip_stores b n Hn)).
    rewrite limit_stores by assumption. reflexivity.
  - unfold after. rewrite E. reflexivity.
  - rewrite (bind_return _ _ _ _ _ (skip_stores b n Hn)).
    rewrite (bind_return _ _ _ _ _ (limit_stores b m Hm)).
    erewrite !bind_return by (apply limit_stores || apply skip_stores; assumption).
    reflexivity.
Qed.

(** C10: [build()] assigns to no field of the builder, so a builder on
    which it returned is left as it was, table name and every field of
    [_data] included, and a second call returns the same string. *)
Theorem build_read_only (b : QueryBuilder) (s : string) :
  result build b = Return s ->
  after build b = b /\ result build (after build b) = Return s.
Proof.
  intro H. rewrite build_keeps_builder. split; [reflexivity | exact H].
Qed.

(** For a custom statement [build()] returns the stored SQL, trimmed. *)
Lemma build_custom (b : QueryBuilder) :
  type_of b = "CUSTOM" ->
  result build b
  = match d_sql (_data b) with
    | Some s => Return (trim s)
    | None => Throw (TypeError "Cannot read properties of null (reading 'trim')")
    end.
Proof.
  unfold type_of. intro H.
  unfold result, build, bind, this_data, this_tableName. simpl. rewrite H. simpl.
  destruct (d_sql (_data b)); reflexivity.
Qed.

Lemma chain_keeps_statement (ms : list modifier) :
  preserves (fun b => (d_type (_data b), d_sql (_data b))) (chain ms).
Proof. apply preserves_forEach. intro m. apply modify_keeps_statement. Qed.

(** What [sql] stores is what it substituted from the builder as it was
    when called. *)
Lemma sql_stores (tpl : string) (b : QueryBuilder) :
  type_of b = "" ->
  let d := _data b in
  d_sql (_data (after (sql tpl) b))
  = Some (sqlFormatObject tpl
            [("orderBy", VStr (d_orderBy d)); ("limit", VStr (d_limit d));
             ("fields", VStr (d_fields d)); ("skipRows", VNum (d_skipRows d));
             ("limitRows", VNum (d_limitRows d))]).
Proof.
  unfold type_of. destruct b as [t d0]. destruct d0. simpl. intro H. subst.
  reflexivity.
Qed.

(** The modifiers called after [sql] do not reach what [build()] returns. *)
Lemma sql_snapshot (tpl : string) (ms : list modifier) (b : QueryBuilder) :
  type_of b = "" ->
  result build (after (chain ms) (after (sql tpl) b))
  = result build (after (sql tpl) b).
Proof.
  intro H.
  pose proof (establish_sets_type (Sql tpl) b H) as Ht. simpl in Ht.
  pose proof (chain_keeps_statement ms (after (sql tpl) b)) as Hk.
  injection Hk as Hk1 Hk2.
  rewrite !build_custom; [| exact Ht | unfold type_of; rewrite Hk1; exact Ht].
  rewrite Hk2. reflexivity.
Qed.

(** With no conditions the WHERE keyword is still rendered, for each of
    the three kinds that have the clause. *)
Lemma build_no_conditions (b : QueryBuilder) :
  d_conditions (_data b) = [] ->
  let d := _data b in
  let t := sqlEscapeId (_tableName b) in
  let limit := if 0 <? d_limitRows d then "LIMIT " ++ num_string (d_limitRows d) else "" in
  (type_of b = "SELECT" ->
   result build b
   = Return (trim ("SELECT " ++ d_fields d ++ " FROM " ++ t ++ " WHERE  "
                     ++ d_orderBy d ++ " " ++ d_limit d))) /\
  (type_of b = "UPDATE" ->
   result build b
   = Return (trim ("UPDATE " ++ t ++ " SET " ++ nullable_string (d_update d)
                     ++ " WHERE  " ++ limit))) /\
  (type_of b = "DELETE" ->
   result build b = Return (trim ("DELETE FROM " ++ t ++ " WHERE  " ++ limit))).
Proof.
  unfold type_of. intro Hc.
  unfold result, build, bind, this_data, this_tableName. simpl.
  rewrite Hc. repeat split; intro Ht; rewrite Ht; reflexivity.
Qed.

(** [select()] with no column overwrites the projection with the empty
    string. *)
Lemma select_nothing_clears_fields (b : QueryBuilder) :
  type_of b = "" -> d_fields (_data (after (select []) b)) = "".
Proof.
  unfold type_of. destruct b as [t d0]. destruct d0. simpl. intro H. subst.
  reflexivity.
Qed.

End Rendering.

(** [insert] walks the indices of the column list, not the column names:
    a row object with columns and no property ["0"] is refused. *)
Lemma insert_object_refused {U : Utils} (b : QueryBuilder) (p : list (string * value)) :
  type_of b = "" -> p <> [] -> lookup "0" p = None ->
  result (insert (VObj p)) b
  = Throw (AssertionError ("every item of data array must have field " ++ quoted "0")).
Proof.
  unfold type_of. destruct b as [t d0]. destruct d0. simpl. intros H Hp H0. subst.
  destruct p as [| kv p']; [congruence |].
  unfold result, insert, bind, assert_type_unset, this_data, assert_ok, assign, ret.
  simpl. unfold has_property.
  change (props_of (VObj (kv :: p'))) with (kv :: p').
  change (index_key 0) with "0". rewrite H0. reflexivity.
Qed.

(** ** The cases of [test/test_query.js], run on the model of the helpers *)

Section Cases.

#[local] Existing Instance model_utils.

(** The fixture is what the constructor returns for [{ table: 'test1' }]. *)
Lemma constructor_test1 : constructor (VObj [("table", VStr "test1")]) = Return test1.
Proof. reflexivity. Qed.

(** C1: with no condition added, [build()] still renders the WHERE
    keyword for the SELECT, UPDATE and DELETE kinds: [delete().build()]
    returns the text below, not ["DELETE FROM `test1`"]. *)
Theorem empty_conditions_render_where :
  result (delete ;; build) test1 = Return "DELETE FROM `test1` WHERE" /\
  result (select name_age ;; build) test1
    = Return "SELECT `name`, `age` FROM `test1` WHERE" /\
  result (update a123_b456 VUndefined ;; build) test1
    = Return "UPDATE `test1` SET `a`=123, `b`=456 WHERE".
Proof. repeat split; vm_compute; reflexivity. Qed.

(** C2: [sql(template)] substitutes when it is called: an [order] that
    follows it sets the ORDER BY clause of the builder and leaves the SQL
    that [build()] returns as [sql] stored it. *)
Theorem sql_substitutes_when_called :
  let q := sql "SELECT * FROM `test1` :$orderBy" ;; order (VStr "`id` ASC") VUndefined in
  d_orderBy (_data (after q test1)) = "ORDER BY `id` ASC" /\
  result (q ;; build) test1 = Return "SELECT * FROM `test1` :$orderBy" /\
  result (q ;; build) test1 = result (sql "SELECT * FROM `test1` :$orderBy" ;; build) test1.
Proof. repeat split; vm_compute; reflexivity. Qed.

(** C3: [insert({ a: 123, b: 456 })] throws on the first column and leaves
    the builder with kind INSERT and no insert payload. *)
Theorem insert_single_row_throws :
  insert a123_b456 test1
  = (Throw (AssertionError ("every item of data array must have field " ++ quoted "0")),
     mkQueryBuilder "test1" (with_type "INSERT" initial_data)).
Proof. vm_compute. reflexivity. Qed.

(** C4: [select('name', 'age').where({ a: 123, b: 456 }).skip(10).build()]
    renders no LIMIT clause: [skip] records the ten rows and stores the
    empty clause. *)
Theorem skip_only_renders_no_limit :
  let q := select name_age ;; where_ a123_b456 VUndefined ;; skip 10 in
  d_skipRows (_data (after q test1)) = 10 /\
  d_limitRows (_data (after q test1)) = 0 /\
  d_limit (_data (after q test1)) = "" /\
  result (q ;; build) test1
    = Return "SELECT `name`, `age` FROM `test1` WHERE `a`=123 AND `b`=456".
Proof. repeat split; vm_compute; reflexivity. Qed.

(** C7: [update()] with no argument throws at the call, after it has
    assigned the kind; a [build()] on the builder it leaves returns SQL
    with [null] for the assignments. *)
Theorem update_without_payload_throws :
  update VUndefined VUndefined test1
    = (Throw (AssertionError "missing update data"),
       mkQueryBuilder "test1" (with_type "UPDATE" initial_data)) /\
  result build (after (update VUndefined VUndefined) test1)
    = Return "UPDATE `test1` SET null WHERE".
Proof. split; vm_compute; reflexivity. Qed.

(** C8: [select()] with no column returns, and the [build()] that follows
    renders an empty projection, not ["*"]. *)
Theorem select_without_columns_renders_empty :
  result (select []) test1 = Return tt /\
  d_fields (_data (after (select []) test1)) = "" /\
  result (select [] ;; build) test1 = Return "SELECT  FROM `test1` WHERE".
Proof. repeat split; vm_compute; reflexivity. Qed.

(** *** Instances of the general results *)

Lemma kind_set_at_most_once_witness :
  (type_of (after (establish (Select name_age)) test1) = "SELECT" /\ "SELECT" <> "") /\
  establish Delete (after (select name_age) test1)
    = (Throw (kind_already_set "SELECT"), after (select name_age) test1) /\
  type_of (invoke_all [Statement (Insert a123_b456); Modifier (Skip 3); Build]
                      (after (select name_age) test1)) = "SELECT".
Proof.
  split; [| split].
  - apply (proj1 (kind_set_at_most_once (Select name_age) test1)). reflexivity.
  - apply (proj2 (kind_set_at_most_once Delete (after (select name_age) test1))).
    vm_compute. discriminate.
  - apply (proj2 (proj2 (kind_set_at_most_once Delete (after (select name_age) test1))
                   ltac:(vm_compute; discriminate))).
Defined.

Lemma failed_validation_has_set_kind_witness :
  type_of test1 = "" /\
  type_of (after (update VUndefined VUndefined) test1) = "UPDATE" /\
  type_of (after (insert (VArr [])) test1) = "INSERT" /\
  establish (Select name_age) (after (insert (VArr [])) test1)
    = (Throw (kind_already_set "INSERT"), after (insert (VArr [])) test1).
Proof.
  pose proof (failed_validation_has_set_kind test1 eq_refl) as [Hu Hi].
  split; [reflexivity |].
  split; [| split].
  - apply (Hu VUndefined VUndefined). left. reflexivity.
  - apply (Hi (VArr [])). right. reflexivity.
  - apply (Hi (VArr [])). right. reflexivity.
Defined.

Lemma skip_limit_commute_witness :
  0 <= 10 /\ 0 <= 20 /\
  (skip 10 ;; limit 20 ;; build) (after (select name_age) test1)
    = (limit 20 ;; skip 10 ;; build) (after (select name_age) test1).
Proof.
  split; [lia | split; [lia |]].
  apply (skip_limit_commute (after (select name_age) test1) 10 20); lia.
Defined.

Lemma build_read_only_witness :
  result build (after (select name_age) test1)
    = Return "SELECT `name`, `age` FROM `test1` WHERE" /\
  after build (after (select name_age) test1) = after (select name_age) test1.
Proof.
  split; [vm_compute; reflexivity |].
  apply (build_read_only (after (select name_age) test1)
           "SELECT `name`, `age` FROM `test1` WHERE").
  vm_compute. reflexivity.
Defined.

End Cases.

(** ** Further properties of the builder *)

Section Sequences.

Context {U : Utils}.

Lemma establish_preserves_tableName (s : statement) : preserves _tableName (establish s).
Proof.
  destruct s; simpl; unfold select, update, insert, delete, sql, assert_type_unset;
    frame; apply preserves_format.
Qed.

Lemma modify_preserves_tableName (m : modifier) : preserves _tableName (modify m).
Proof.
  destruct m; simpl; unfold where_, order, skip, limit, push_condition;
    frame; apply preserves_format.
Qed.

Lemma invoke_all_preserves {T} (P : QueryBuilder -> T) :
  (forall c b, P (invoke c b) = P b) ->
  forall cs b, P (invoke_all cs b) = P b.
Proof.
  intros H cs. unfold invoke_all.
  induction cs as [| c cs IH]; intro b; simpl; [reflexivity |].
  rewrite IH. apply H.
Qed.

Lemma invoke_keeps_tableName (c : call) (b : QueryBuilder) :
  _tableName (invoke c b) = _tableName b.
Proof.
  destruct c as [s | m |]; simpl.
  - apply establish_preserves_tableName.
  - apply modify_preserves_tableName.
  - rewrite build_keeps_builder. reflexivity.
Qed.

Lemma options_props (options : value) :
  (if truthy options then props_of options else []) = props_of options.
Proof.
  destruct options as [| | [] | n | s | l | p]; try reflexivity.
  - simpl. destruct (n =? 0); reflexivity.
  - destruct s; reflexivity.
Qed.

(** The constructor accepts exactly a non-empty string as [options.table];
    the builder it returns has that table name and the initial [_data], and
    no sequence of calls changes the table name. *)
Theorem constructed_table_name_is_fixed (options : value) (b : QueryBuilder)
        (cs : list call) :
  constructor options = Return b ->
  get options "table" = VStr (_tableName b) /\
  _tableName b <> "" /\
  _data b = initial_data /\
  _tableName (invoke_all cs b) = _tableName b.
Proof.
  unfold constructor, get. rewrite options_props.
  destruct (lookup "table" (props_of options)) as [tb |]; [| discriminate].
  destruct tb as [| | [] | n | s | l | p]; simpl; try discriminate.
  - destruct (n =? 0); discriminate.
  - destruct s as [| c r]; simpl; [discriminate |].
    destruct (truthy _); [discriminate |].
    intro H. injection H as <-. simpl.
    repeat split; [discriminate |].
    apply (invoke_all_preserves _tableName invoke_keeps_tableName).
Qed.

(** The constructor refuses every other [options.table]. *)
Theorem constructor_refuses (options : value) :
  (forall s, s <> "" -> get options "table" <> VStr s) ->
  constructor options
  = Throw (AssertionError (if truthy (get options "table")
                           then "table name must be a string"
                           else "must provide table name")).
Proof.
  unfold constructor, get. rewrite options_props.
  destruct (lookup "table" (props_of options)) as [tb |]; [| reflexivity].
  destruct tb as [| | [] | n | s | l | p]; simpl; try reflexivity.
  - destruct (n =? 0); reflexivity.
  - destruct s as [| c r]; simpl; [reflexivity |].
    intro H. exfalso. apply (H (String c r)); [discriminate | reflexivity].
Qed.

(** Until a statement method is called [build()] throws, whichever
    modifiers were called, and leaves the builder as the modifiers left
    it. *)
Theorem build_needs_a_statement (ms : list modifier) (b : QueryBuilder) :
  type_of b = "" ->
  build (after (chain ms) b)
  = (Throw (Error ("invalid query type " ++ quoted "")), after (chain ms) b).
Proof.
  intro H.
  assert (Ht : type_of (after (chain ms) b) = "").
  { pose proof (chain_keeps_statement ms b) as Hk. injection Hk as Hk _.
    unfold type_of. rewrite Hk. exact H. }
  unfold type_of in Ht.
  unfold build, bind, this_data, this_tableName. simpl. rewrite Ht. reflexivity.
Qed.

End Sequences.

(** *** Failures of the modifiers *)

Section Atomic.









End Atomic.

Section Modifiers.

Context {U : Utils}.

Lemma format_atomic (tpl values : value) : atomic (format tpl values).
Proof. intros b e _. apply (preserves_format (fun b => b)). Qed.



(** *** The conditions *)

Lemma appends_of_preserves {A} (m : M A) :
  preserves (fun b => d_conditions (_data b)) m -> appends m.
Proof. intros H b. exists []. rewrite (H b). symmetry. apply app_nil_r. Qed.

Lemma appends_bind {A B} (m : M A) (k : A -> M B) :
  appends m -> (forall a, appends (k a)) -> appends (bind m k).
Proof.
  intros Hm Hk b. destruct (Hm b) as [a1 H1].
  unfold after, bind in *. destruct (m b) as [[a | e] b']; simpl in *.
  - destruct (Hk a b') as [a2 H2]. unfold after in H2.
    exists (a1 ++ a2)%list. rewrite H2, H1. symmetry. apply app_assoc.
  - exists a1. exact H1.
Qed.

Lemma appends_forEach {A} (f : A -> M unit) (l : list A) :
  (forall x, appends (f x)) -> appends (forEach f l).
Proof.
  intro Hf. induction l as [| x r IH]; simpl.
  - intro b. exists []. symmetry. apply app_nil_r.
  - apply appends_bind; [apply Hf | intros _; exact IH].
Qed.

Lemma appends_push (c : string) : appends (push_condition c).
Proof. intros [t d]. exists [c]. reflexivity. Qed.

Lemma where_appends (c v : value) : appends (where_ c v).
Proof.
  unfold where_.
  apply appends_bind; [apply appends_of_preserves, preserves_assert_ok | intros _].
  apply appends_bind; [apply appends_of_preserves, preserves_assert_ok | intros _].
  destruct (typeof c =? "string")%string.
  - apply appends_bind; [apply appends_of_preserves, preserves_format | intro s].
    apply appends_push.
  - apply appends_forEach. intro x. apply appends_push.
Qed.

Lemma invoke_appends (c : call) (b : QueryBuilder) :
  exists added,
    d_conditions (_data (invoke c b)) = (d_conditions (_data b) ++ added)%list.
Proof.
  destruct c as [s | m |]; simpl.
  - apply appends_of_preserves.
    destruct s; simpl; unfold select, update, insert, delete, sql, assert_type_unset;
      frame; apply preserves_format.
  - destruct m; simpl; [apply where_appends | | |]; apply appends_of_preserves;
      unfold order, skip, limit; frame; apply preserves_format.
  - rewrite build_keeps_builder. exists []. symmetry. apply app_nil_r.
Qed.

(** No method removes, rewrites or reorders a condition: after any
    sequence of calls the conditions are those the builder had, followed by
    the ones added. *)
Theorem conditions_only_grow (cs : list call) (b : QueryBuilder) :
  exists added,
    d_conditions (_data (invoke_all cs b)) = (d_conditions (_data b) ++ added)%list.
Proof.
  unfold invoke_all. revert b.
  induction cs as [| c cs IH]; intro b; simpl.
  - exists []. symmetry. apply app_nil_r.
  - destruct (IH (invoke c b)) as [a2 H2]. destruct (invoke_appends c b) as [a1 H1].
    exists (a1 ++ a2)%list. rewrite H2, H1. symmetry. apply app_assoc.
Qed.

Lemma forEach_push (f : string -> string) (l : list string) (b : QueryBuilder) :
  forEach (fun x => push_condition (f x)) l b
  = (Return tt, set_data (fun d => with_conditions (d_conditions d ++ map f l) d) b).
Proof.
  revert b. induction l as [| x r IH]; intros [t d]; simpl.
  - unfold ret, set_data, with_conditions. simpl. rewrite app_nil_r.
    destruct d; reflexivity.
  - unfold bind. unfold push_condition at 1, assign. rewrite IH.
    unfold set_data, with_conditions. simpl. rewrite <- app_assoc. reflexivity.
Qed.

Lemma lookup_unique (p : list (string * value)) (k : string) (v : value) :
  NoDup (map fst p) -> In (k, v) p -> lookup k p = Some v.
Proof.
  induction p as [| [k' v'] r IH]; simpl; intros Hnd Hin; [contradiction |].
  inversion Hnd as [| ? ? Hn Hr]; subst.
  destruct Hin as [E | Hin].
  - injection E as -> ->. rewrite String.eqb_refl. reflexivity.
  - destruct (String.eqb_spec k k') as [-> | Hne].
    + exfalso. apply Hn. apply (in_map fst) in Hin. exact Hin.
    + apply IH; assumption.
Qed.

(** [where] with an object adds one condition for each property, in the
    order of the properties, behind the conditions already there, [name]
    escaped as an identifier and the value as a literal; its second
    argument is not read. *)
Theorem where_object_appends (p : list (string * value)) (values : value)
        (b : QueryBuilder) :
  NoDup (map fst p) ->
  where_ (VObj p) values b
  = (Return tt,
     set_data (fun d =>
       with_conditions
         (d_conditions d
            ++ map (fun kv => sqlEscapeId (fst kv) ++ "=" ++ sqlEscape (snd kv)) p) d) b).
Proof.
  intro Hnd. unfold where_. simpl.
  unfold bind at 1. simpl. unfold bind at 1. simpl.
  change (props_of (VObj p)) with p.
  rewrite (forEach_push
             (fun name => sqlEscapeId name ++ String "=" (sqlEscape (get (VObj p) name)))).
  f_equal. unfold set_data. f_equal. f_equal. f_equal.
  rewrite map_map. apply map_ext_in. intros [k v] Hin. simpl.
  unfold get. change (props_of (VObj p)) with p.
  rewrite (lookup_unique p k v Hnd Hin). reflexivity.
Qed.

(** *** Ordering *)

Lemma format_pure (tpl values : value) :
  exists r, forall b, format tpl values b = (r, b).
Proof.
  unfold format, bind, assert_ok.
  destruct (typeof tpl =? "string")%string; [| eexists; intro; reflexivity].
  destruct (truthy values && (isArray values || (typeof values =? "object")%string))%bool;
    [| eexists; intro; reflexivity].
  destruct values; eexists; intro; reflexivity.
Qed.

Lemma order_shape (tpl values : value) :
  exists r : outcome value,
    forall b,
      order tpl values b
      = match r with
        | Return f =>
            (Return tt,
             set_data (fun d => with_orderBy ("ORDER BY " ++ toString f)
                                  (with_orderFields f d)) b)
        | Throw e => (Throw e, b)
        end.
Proof.
  unfold order. destruct (truthy values).
  - destruct (format_pure tpl values) as [[s | e] H].
    + exists (Return (VStr s)). intro b. unfold bind. rewrite H. reflexivity.
    + exists (Throw e). intro b. unfold bind. rewrite H. reflexivity.
  - exists (Return tpl). intro b. reflexivity.
Qed.

(** [order] overwrites: a call that returns leaves the builder as if no
    [order] had been called before it. *)
Theorem order_last_call_wins (tpl1 values1 tpl2 values2 : value) (b : QueryBuilder) :
  result (order tpl2 values2) b = Return tt ->
  after (order tpl2 values2) (after (order tpl1 values1) b)
  = after (order tpl2 values2) b.
Proof.
  destruct (order_shape tpl1 values1) as [r1 H1].
  destruct (order_shape tpl2 values2) as [r2 H2].
  unfold result, after. rewrite !H2, H1.
  destruct r2 as [f2 | e2]; simpl; [intros _ | discriminate].
  destruct r1 as [f1 | e1]; simpl; [| reflexivity].
  destruct b as [t d]. destruct d. reflexivity.
Qed.

End Modifiers.

(** *** What [build] reads *)

Section Reads.

Context {U : Utils}.

(** The fields [build] reads for a statement that is not a SELECT. *)
Lemma build_reads (b b' : QueryBuilder) :
  type_of b <> "SELECT" ->
  _tableName b = _tableName b' ->
  d_type (_data b) = d_type (_data b') ->
  d_conditions (_data b) = d_conditions (_data b') ->
  d_limitRows (_data b) = d_limitRows (_data b') ->
  d_update (_data b) = d_update (_data b') ->
  d_insert (_data b) = d_insert (_data b') ->
  d_sql (_data b) = d_sql (_data b') ->
  result build b = result build b'.
Proof.
  unfold type_of. destruct b as [t d], b' as [t' d']. destruct d, d'. simpl.
  intros Hne -> -> -> -> -> -> ->. apply String.eqb_neq in Hne.
  unfold result, build, bind, this_data, this_tableName. simpl. rewrite Hne.
  repeat match goal with
         | |- context [if ?c then _ else _] => destruct c; try reflexivity
         end.
  destruct d_sql1; reflexivity.
Qed.

Lemma skip_and_order_frame (n : Z) (tpl values : value) :
  let P := fun b => (_tableName b, d_type (_data b), d_conditions (_data b),
                     d_limitRows (_data b), d_update (_data b), d_insert (_data b),
                     d_sql (_data b)) in
  preserves P (skip n) /\ preserves P (order tpl values).
Proof.
  split; unfold skip, order; frame; apply preserves_format.
Qed.

(** The rows skipped and the ordering reach no statement but a SELECT:
    on a builder of any other kind [build()] returns the same after a
    [skip] or an [order] as before it. *)
Theorem skip_and_order_only_reach_select (n : Z) (tpl values : value) (b : QueryBuilder) :
  type_of b <> "SELECT" ->
  result build (after (skip n) b) = result build b /\
  result build (after (order tpl values) b) = result build b.
Proof.
  intro H. destruct (skip_and_order_frame n tpl values) as [Hs Ho].
  specialize (Hs b). specialize (Ho b). simpl in Hs, Ho.
  injection Hs as s1 s2 s3 s4 s5 s6 s7. injection Ho as o1 o2 o3 o4 o5 o6 o7.
  split; symmetry; apply build_reads; unfold type_of in *; congruence.
Qed.

Lemma chain_insert_frame (ms : list modifier) :
  preserves (fun b => (_tableName b, d_type (_data b), d_insert (_data b),
                       d_sql (_data b))) (chain ms).
Proof.
  apply preserves_forEach. intro m.
  destruct m; simpl; unfold where_, order, skip, limit, push_condition;
    frame; apply preserves_format.
Qed.

(** No modifier reaches an INSERT or a custom statement: [build()] returns
    the same after any chain of [where], [order], [skip] and [limit] calls
    as before it. *)
Theorem insert_and_custom_ignore_modifiers (ms : list modifier) (b : QueryBuilder) :
  type_of b = "INSERT" \/ type_of b = "CUSTOM" ->
  result build (after (chain ms) b) = result build b.
Proof.
  intro H. pose proof (chain_insert_frame ms b) as Hf. simpl in Hf.
  injection Hf as f1 f2 f3 f4. unfold type_of in H.
  unfold result, build, bind, this_data, this_tableName. simpl.
  rewrite f1, f2, f3, f4.
  destruct H as [H | H]; rewrite H; simpl; [reflexivity |].
  destruct (d_sql (_data b)); reflexivity.
Qed.

(** For an UPDATE or a DELETE the LIMIT clause is computed by [build()]
    from the rows [limit] recorded, a safe integer: [LIMIT n] for a
    positive [n], nothing for [limit(0)]. *)
Theorem limit_clause_of_update_and_delete (n : Z) (b : QueryBuilder) :
  0 <= n <= MAX_SAFE_INTEGER ->
  let t := sqlEscapeId (_tableName b) in
  let w := concat " AND " (d_conditions (_data b)) in
  let clause := if 0 <? n then "LIMIT " ++ num_string n else "" in
  (type_of b = "UPDATE" ->
   result build (after (limit n) b)
   = Return (trim ("UPDATE " ++ t ++ " SET " ++ nullable_string (d_update (_data b))
                     ++ " WHERE " ++ w ++ " " ++ clause))) /\
  (type_of b = "DELETE" ->
   result build (after (limit n) b)
   = Return (trim ("DELETE FROM " ++ t ++ " WHERE " ++ w ++ " " ++ clause))).
Proof.
  intros [Hn _]. unfold after, type_of. rewrite (limit_stores b n Hn).
  destruct b as [t d]. destruct d. simpl.
  split; intros ->; reflexivity.
Qed.

(** *** The text [build] returns *)

Lemma trimStart_head (s : string) :
  match trimStart s with
  | EmptyString => True
  | String c _ => is_space c = false
  end.
Proof.
  induction s as [| c r IH]; simpl; [exact I |].
  destruct (is_space c) eqn:E; [exact IH | exact E].
Qed.

Lemma trimEnd_idempotent (s : string) : trimEnd (trimEnd s) = trimEnd s.
Proof.
  induction s as [| c r IH]; simpl; [reflexivity |].
  destruct (is_space c && (trimEnd r =? "")%string)%bool eqn:E; simpl.
  - reflexivity.
  - rewrite IH, E. reflexivity.
Qed.

Lemma trimEnd_head (s : string) :
  match s with EmptyString => True | String c _ => is_space c = false end ->
  match trimEnd s with EmptyString => True | String c _ => is_space c = false end.
Proof.
  destruct s as [| c r]; simpl; [trivial |].
  intro H. rewrite H. simpl. exact H.
Qed.

Lemma trimStart_fixed (s : string) :
  match s with EmptyString => True | String c _ => is_space c = false end ->
  trimStart s = s.
Proof. destruct s as [| c r]; simpl; [reflexivity |]. intros ->. reflexivity. Qed.

Lemma trimEnd_last (s r : string) (c : ascii) :
  trimEnd s = r ++ String c EmptyString -> is_space c = false.
Proof.
  revert r. induction s as [| a t IH]; intro r; simpl.
  - destruct r; discriminate.
  - destruct (is_space a && (trimEnd t =? "")%string)%bool eqn:E.
    + destruct r; discriminate.
    + destruct r as [| a' r']; simpl; intro H; injection H as Ha Ht.
      * subst a. rewrite Ht in E. simpl in E.
        rewrite andb_true_r in E. exact E.
      * apply (IH r'). exact Ht.
Qed.

Lemma trim_idempotent (s : string) : trim (trim s) = trim s.
Proof.
  unfold trim.
  rewrite (trimStart_fixed (trimEnd (trimStart s))).
  - apply trimEnd_idempotent.
  - apply trimEnd_head, trimStart_head.
Qed.

Lemma build_returns_trim (b : QueryBuilder) (s : string) :
  result build b = Return s -> exists raw, s = trim raw.
Proof.
  unfold result, build, bind at 1, this_data. simpl.
  unfold bind at 1, this_tableName. simpl. unfold bind.
  match goal with
  | |- context [let (o, b') := ?x in _] => destruct x as [[raw | e] b']
  end; simpl; intro H; [| discriminate].
  injection H as <-. exists raw. reflexivity.
Qed.

(** The SQL [build()] returns is trimmed: trimming it again changes
    nothing, and it neither begins nor ends with white space. *)
Theorem build_output_is_trimmed (b : QueryBuilder) (s : string) :
  result build b = Return s ->
  trim s = s /\
  (forall c r, s = String c r -> is_space c = false) /\
  (forall r c, s = r ++ String c EmptyString -> is_space c = false).
Proof.
  intro H. destruct (build_returns_trim b s H) as [raw ->].
  split; [apply trim_idempotent |]. split.
  - intros c r E. pose proof (trimEnd_head (trimStart raw) (trimStart_head raw)) as Hh.
    unfold trim in E. rewrite E in Hh. exact Hh.
  - intros r c E. apply (trimEnd_last (trimStart raw) r c). exact E.
Qed.

End Reads.

(** *** Statement methods and modifiers *)

Section Locality.

Context {T : Type} (P : QueryBuilder -> T).

Lemma agrees_ret {A} (a : A) : agrees P (ret a) (ret a).
Proof. intros b b' H. split; [reflexivity | exact H]. Qed.

Lemma agrees_throw {A} (e : error) : agrees P (@throw A e) (throw e).
Proof. intros b b' H. split; [reflexivity | exact H]. Qed.

Lemma agrees_assert_ok (c : bool) (message : string) :
  agrees P (assert_ok c message) (assert_ok c message).
Proof. intros b b' H. destruct c; (split; [reflexivity | exact H]). Qed.

Lemma agrees_bind {A B} (m m' : M A) (k k' : A -> M B) :
  agrees P m m' -> (forall a, agrees P (k a) (k' a)) ->
  agrees P (bind m k) (bind m' k').
Proof.
  intros Hm Hk b b' H. destruct (Hm b b' H) as [Hr Ha].
  unfold result, after, bind in *.
  destruct (m b) as [r b1], (m' b') as [r' b1']. simpl in *. subst r'.
  destruct r as [a | e].
  - apply (Hk a b1 b1' Ha).
  - split; [reflexivity | exact Ha].
Qed.

Lemma agrees_mapM {A B} (f : A -> M B) (l : list A) :
  (forall x, agrees P (f x) (f x)) -> agrees P (mapM f l) (mapM f l).
Proof.
  intro Hf. induction l as [| x r IH]; simpl.
  - apply agrees_ret.
  - apply agrees_bind; [apply Hf | intro y].
    apply agrees_bind; [exact IH | intro ys]. apply agrees_ret.
Qed.

Lemma agrees_forEach {A} (f : A -> M unit) (l : list A) :
  (forall x, agrees P (f x) (f x)) -> agrees P (forEach f l) (forEach f l).
Proof.
  intro Hf. induction l as [| x r IH]; simpl.
  - apply agrees_ret.
  - apply agrees_bind; [apply Hf | intros _; exact IH].
Qed.

Lemma agrees_assign (f : data -> data) :
  (forall b b', P b = P b' -> P (set_data f b) = P (set_data f b')) ->
  agrees P (assign f) (assign f).
Proof. intros Hf b b' H. split; [reflexivity | apply (Hf b b' H)]. Qed.

(** A computation that hands over the [_data] it reads. *)
Lemma agrees_this_data {A} (k : data -> M A) :
  (forall b b', P b = P b' ->
     result (k (_data b)) b = result (k (_data b')) b' /\
     P (after (k (_data b)) b) = P (after (k (_data b')) b')) ->
  agrees P (bind this_data k) (bind this_data k).
Proof. intros H b b' Hb. apply (H b b' Hb). Qed.

End Locality.

(** Splits a computation along its binds and branches, both sides alike. *)
Ltac locality side :=
  repeat first
    [ apply agrees_ret
    | apply agrees_throw
    | apply agrees_assert_ok
    | apply agrees_bind; [| intro ]
    | apply agrees_mapM; intro
    | apply agrees_forEach; intro
    | apply agrees_assign;
      let H := fresh in
      intros [? []] [? []]; unfold side; simpl; intro H; injection H; intros; subst;
      reflexivity
    | match goal with
      | |- agrees _ (if ?c then _ else _) _ => destruct c
      | |- agrees _ (match ?x with _ => _ end) _ => destruct x
      end ].

Section Commute.

Context {U : Utils}.

Lemma format_local {T} (P : QueryBuilder -> T) (tpl values : value) :
  local P (format tpl values).
Proof. unfold local, format. locality P. Qed.

Lemma assert_type_unset_local : local statement_side assert_type_unset.
Proof.
  apply agrees_this_data. intros b b' H.
  assert (E : d_type (_data b) = d_type (_data b')).
  { unfold statement_side in H. congruence. }
  rewrite E. apply agrees_assert_ok. exact H.
Qed.

Lemma establish_local (s : statement) : local statement_side (establish s).
Proof.
  unfold local.
  destruct s; simpl; unfold select, update, insert, delete, sql;
    (apply agrees_bind; [apply assert_type_unset_local | intros _]);
    locality statement_side; try apply format_local.
Qed.

Lemma modify_local (m : modifier) : local modifier_side (modify m).
Proof.
  unfold local. destruct m as [c v | tpl v | n | n]; simpl.
  - unfold where_, push_condition. locality modifier_side; apply format_local.
  - unfold order. apply agrees_bind.
    + locality modifier_side; apply format_local.
    + intros _. apply agrees_this_data. intros [t d] [t' d']. destruct d, d'.
      unfold modifier_side. simpl. intro H. injection H as -> -> -> -> -> ->.
      split; reflexivity.
  - unfold skip. apply agrees_bind; [apply agrees_assert_ok | intros _].
    apply agrees_bind; [locality modifier_side | intros _].
    apply agrees_this_data. intros [t d] [t' d']. destruct d, d'.
    unfold modifier_side. simpl. intro H. injection H as -> -> -> -> -> ->.
    split; reflexivity.
  - unfold limit. apply agrees_bind; [apply agrees_assert_ok | intros _].
    apply agrees_bind; [locality modifier_side | intros _].
    apply agrees_this_data. intros [t d] [t' d']. destruct d, d'.
    unfold modifier_side. simpl. intro H. injection H as -> -> -> -> -> ->.
    split; reflexivity.
Qed.

Lemma modify_frame (m : modifier) :
  preserves statement_side (modify m) /\ preserves fixed_side (modify m).
Proof.
  split; destruct m; simpl; unfold where_, order, skip, limit, push_condition;
    frame; apply preserves_format.
Qed.

Lemma establish_frame (s : statement) :
  (forall tpl, s <> Sql tpl) ->
  preserves modifier_side (establish s) /\ preserves fixed_side (establish s).
Proof.
  intro Hs.
  split; destruct s; simpl; try (exfalso; apply (Hs tpl); reflexivity);
    unfold select, update, insert, delete, assert_type_unset;
    frame; apply preserves_format.
Qed.

Lemma builder_ext (b b' : QueryBuilder) :
  statement_side b = statement_side b' ->
  modifier_side b = modifier_side b' ->
  fixed_side b = fixed_side b' ->
  b = b'.
Proof.
  destruct b as [t d], b' as [t' d']. destruct d, d'.
  unfold statement_side, modifier_side, fixed_side. simpl.
  intros H1 H2 H3.
  injection H1 as -> -> -> ->. injection H2 as -> -> -> -> -> ->.
  injection H3 as -> -> ->. reflexivity.
Qed.

(** [select], [update], [insert] and [delete] commute with every
    modifier: called in either order they return or throw the same and
    leave the same builder, so clauses may be added before the statement
    kind is chosen as well as after. *)
Theorem statement_and_modifier_commute (s : statement) (m : modifier) (b : QueryBuilder) :
  (forall tpl, s <> Sql tpl) ->
  after (establish s) (after (modify m) b) = after (modify m) (after (establish s) b) /\
  result (establish s) (after (modify m) b) = result (establish s) b /\
  result (modify m) (after (establish s) b) = result (modify m) b.
Proof.
  intro Hs.
  destruct (modify_frame m) as [Fm1 Fm2].
  destruct (establish_frame s Hs) as [Fs1 Fs2].
  destruct (establish_local s (after (modify m) b) b (Fm1 b)) as [Rs Ls].
  destruct (modify_local m (after (establish s) b) b (Fs1 b)) as [Rm Lm].
  split; [| split; assumption].
  apply builder_ext.
  - rewrite Ls. symmetry. apply Fm1.
  - rewrite Fs1. symmetry. exact Lm.
  - rewrite Fs2, Fm2. symmetry. rewrite Fm2. apply Fs2.
Qed.

(** Each modifier assigns its own fields and no other: [where] the
    conditions, [order] the ordering, [skip] and [limit] their row count
    and the stored clause. *)
Theorem modifier_frames (c v tpl values : value) (n : Z) :
  preserves (set_data (with_conditions [])) (where_ c v) /\
  preserves (set_data (fun d => with_orderBy "" (with_orderFields VUndefined d)))
            (order tpl values) /\
  preserves (set_data (fun d => with_limit "" (with_skipRows 0 d))) (skip n) /\
  preserves (set_data (fun d => with_limit "" (with_limitRows 0 d))) (limit n).
Proof.
  repeat split; unfold where_, order, skip, limit, push_condition;
    frame; apply preserves_format.
Qed.

End Commute.

(** *** Arguments of [select] and [where] *)

Section Arguments.

Context {U : Utils}.

(** The check [select] applies to each of its arguments. *)
Lemma column_check_accepts (names : list string) (b : QueryBuilder) :
  Forall (fun name => name <> "") names ->
  mapM (fun name =>
          assert_ok (truthy name && (typeof name =? "string")%string)
                    "field name must be a string" ;;
          ret (sqlEscapeId (toString name))) (map VStr names) b
  = (Return (map sqlEscapeId names), b).
Proof.
  induction 1 as [| name r Hn _ IH]; simpl; [reflexivity |].
  unfold bind at 1. unfold bind at 1.
  destruct name as [| c s]; [congruence |]. simpl.
  unfold bind at 1. rewrite IH. reflexivity.
Qed.

Lemma not_a_column (v : value) :
  (forall s, s <> "" -> v <> VStr s) ->
  (truthy v && (typeof v =? "string")%string)%bool = false.
Proof.
  intro H. destruct v as [| | [] | n | s | l | p]; try reflexivity.
  - simpl. apply andb_false_r.
  - destruct s as [| c r]; [reflexivity |].
    exfalso. apply (H (String c r)); [discriminate | reflexivity].
Qed.

Lemma column_check_refuses (args : list value) (b : QueryBuilder) :
  Exists (fun v => forall s, s <> "" -> v <> VStr s) args ->
  mapM (fun name =>
          assert_ok (truthy name && (typeof name =? "string")%string)
                    "field name must be a string" ;;
          ret (sqlEscapeId (toString name))) args b
  = (Throw (AssertionError "field name must be a string"), b).
Proof.
  induction args as [| x r IH]; intro H; [inversion H |].
  simpl. unfold bind at 1. unfold bind at 1.
  destruct (truthy x && (typeof x =? "string")%string)%bool eqn:E; simpl.
  - inversion H as [? ? Hx | ? ? Hr]; subst.
    + rewrite (not_a_column x Hx) in E. discriminate.
    + unfold bind at 1. rewrite (IH Hr). reflexivity.
  - reflexivity.
Qed.

(** On a builder whose kind is unset, [select] with non-empty strings
    returns, sets the kind and stores the names, each escaped as an
    identifier, joined by a comma and a space; with no name at all the
    stored projection is the empty string. *)
Theorem select_stores_columns (names : list string) (b : QueryBuilder) :
  type_of b = "" ->
  Forall (fun name => name <> "") names ->
  select (map VStr names) b
  = (Return tt,
     set_data (fun d => with_fields (concat ", " (map sqlEscapeId names))
                          (with_type "SELECT" d)) b).
Proof.
  unfold type_of. intros Ht Hn. unfold select.
  unfold bind at 1. unfold assert_type_unset, bind at 1, this_data, assert_ok.
  simpl. rewrite Ht. simpl.
  unfold bind at 1. simpl. unfold bind at 1.
  rewrite (column_check_accepts names _ Hn). reflexivity.
Qed.

(** On a builder whose kind is unset, [select] with an argument that is
    not a non-empty string throws; it has set the kind by then and leaves
    the projection as it was. *)
Theorem select_refuses_columns (args : list value) (b : QueryBuilder) :
  type_of b = "" ->
  Exists (fun v => forall s, s <> "" -> v <> VStr s) args ->
  select args b
  = (Throw (AssertionError "field name must be a string"),
     set_data (with_type "SELECT") b).
Proof.
  unfold type_of. intros Ht Hx. unfold select.
  unfold bind at 1. unfold assert_type_unset, bind at 1, this_data, assert_ok.
  simpl. rewrite Ht. simpl.
  unfold bind at 1. simpl. unfold bind at 1.
  rewrite (column_check_refuses args _ Hx). reflexivity.
Qed.

(** [where] with a non-empty string as condition substitutes the values
    into it and adds the result as one condition: positionally for an
    array, by name for any other object, positionally with no value when
    the second argument is missing or falsy.  Any other second argument
    makes it throw, and so does the empty string as condition; the
    conditions are then left as they were. *)
Theorem where_template (c : ascii) (r : string) (values : value) (b : QueryBuilder) :
  let tpl := String c r in
  let add := fun s => set_data (fun d => with_conditions (d_conditions d ++ [s]) d) b in
  where_ (VStr tpl) values b
  = (if truthy values then
       match values with
       | VArr l => (Return tt, add (sqlFormat tpl l))
       | VObj p => (Return tt, add (sqlFormatObject tpl p))
       | _ => (Throw (AssertionError "second parameter must be an array or object"), b)
       end
     else (Return tt, add (sqlFormat tpl []))) /\
  where_ (VStr "") values b = (Throw (AssertionError "missing condition"), b).
Proof.
  split; [| reflexivity].
  unfold where_, format, push_condition, bind, assert_ok, assign, ret, throw, set_data.
  simpl. destruct values as [| | [] | n | s | l | p]; simpl; try reflexivity.
  - destruct (n =? 0) eqn:E; simpl; rewrite ?E; reflexivity.
  - destruct s; reflexivity.
Qed.

End Arguments.

(** *** Instances on the fixtures *)

Section Instances.

#[local] Existing Instance model_utils.

Lemma constructed_table_name_is_fixed_witness :
  constructor (VObj [("table", VStr "test1")]) = Return test1 /\
  _tableName (invoke_all [Statement Delete; Modifier (Limit 1); Build] test1) = "test1".
Proof.
  split; [reflexivity |].
  apply (constructed_table_name_is_fixed (VObj [("table", VStr "test1")]) test1
           [Statement Delete; Modifier (Limit 1); Build]).
  reflexivity.
Defined.

Lemma build_needs_a_statement_witness :
  type_of test1 = "" /\
  result build (after (chain [Where a123_b456 VUndefined; Skip 3]) test1)
  = Throw (Error ("invalid query type " ++ quoted "")).
Proof.
  split; [reflexivity |].
  unfold result.
  rewrite (build_needs_a_statement [Where a123_b456 VUndefined; Skip 3] test1 eq_refl).
  reflexivity.
Defined.


Lemma where_object_appends_witness :
  NoDup (map fst [("a", VNum 123); ("b", VNum 456)]) /\
  d_conditions (_data (after (where_ a123_b456 VUndefined) test1))
  = ["`a`=123"; "`b`=456"].
Proof.
  assert (Hnd : NoDup (map fst [("a", VNum 123); ("b", VNum 456)])).
  { simpl. constructor.
    - simpl. intros [H | []]. discriminate.
    - constructor; [intros [] | constructor]. }
  split; [exact Hnd |].
  unfold after, a123_b456.
  rewrite (where_object_appends [("a", VNum 123); ("b", VNum 456)] VUndefined test1 Hnd).
  reflexivity.
Defined.

Lemma order_last_call_wins_witness :
  result (order (VStr "`b` ASC") VUndefined) test1 = Return tt /\
  d_orderBy (_data (after (order (VStr "`b` ASC") VUndefined)
                          (after (order (VStr "`a` DESC") VUndefined) test1)))
  = "ORDER BY `b` ASC".
Proof.
  split; [reflexivity |].
  rewrite (order_last_call_wins (VStr "`a` DESC") VUndefined (VStr "`b` ASC") VUndefined
             test1 eq_refl).
  reflexivity.
Defined.

Lemma skip_and_order_only_reach_select_witness :
  type_of (after delete test1) <> "SELECT" /\
  result build (after (skip 5) (after delete test1)) = result build (after delete test1).
Proof.
  assert (H : type_of (after delete test1) <> "SELECT") by (vm_compute; discriminate).
  split; [exact H |].
  apply (skip_and_order_only_reach_select 5 VUndefined VUndefined (after delete test1) H).
Defined.

Lemma insert_and_custom_ignore_modifiers_witness :
  type_of (after (sql "SELECT 1 :$limit") test1) = "CUSTOM" /\
  result build (after (chain [Limit 10; Where a123_b456 VUndefined])
                      (after (sql "SELECT 1 :$limit") test1))
  = result build (after (sql "SELECT 1 :$limit") test1).
Proof.
  split; [reflexivity |].
  apply (insert_and_custom_ignore_modifiers [Limit 10; Where a123_b456 VUndefined]
           (after (sql "SELECT 1 :$limit") test1)).
  right. reflexivity.
Defined.

Lemma limit_clause_of_update_and_delete_witness :
  0 <= 1 <= MAX_SAFE_INTEGER /\
  type_of (after (delete ;; where_ (VStr "`a`=2") VUndefined) test1) = "DELETE" /\
  result build (after (limit 1) (after (delete ;; where_ (VStr "`a`=2") VUndefined) test1))
  = Return "DELETE FROM `test1` WHERE `a`=2 LIMIT 1".
Proof.
  assert (H1 : 0 <= 1 <= MAX_SAFE_INTEGER) by (unfold MAX_SAFE_INTEGER; lia).
  split; [exact H1 |]. split; [reflexivity |].
  rewrite (proj2 (limit_clause_of_update_and_delete 1
                    (after (delete ;; where_ (VStr "`a`=2") VUndefined) test1)
                    H1) eq_refl).
  reflexivity.
Defined.

Lemma build_output_is_trimmed_witness :
  result build (after delete test1) = Return "DELETE FROM `test1` WHERE" /\
  trim "DELETE FROM `test1` WHERE" = "DELETE FROM `test1` WHERE".
Proof.
  split; [reflexivity |].
  apply (build_output_is_trimmed (after delete test1) "DELETE FROM `test1` WHERE").
  reflexivity.
Defined.

Lemma statement_and_modifier_commute_witness :
  (forall tpl, Select name_age <> Sql tpl) /\
  after (select name_age) (after (where_ a123_b456 VUndefined) test1)
  = after (where_ a123_b456 VUndefined) (after (select name_age) test1).
Proof.
  assert (H : forall tpl, Select name_age <> Sql tpl) by (intros tpl; discriminate).
  split; [exact H |].
  apply (statement_and_modifier_commute (Select name_age) (Where a123_b456 VUndefined)
           test1 H).
Defined.

Lemma select_stores_columns_witness :
  type_of test1 = "" /\
  Forall (fun name => name <> "") ["name"; "age"] /\
  d_fields (_data (after (select name_age) test1)) = "`name`, `age`".
Proof.
  assert (Hn : Forall (fun name => name <> "") ["name"; "age"]).
  { repeat constructor; discriminate. }
  split; [reflexivity |]. split; [exact Hn |].
  unfold after, name_age.
  change [VStr "name"; VStr "age"] with (map VStr ["name"; "age"]).
  rewrite (select_stores_columns ["name"; "age"] test1 eq_refl Hn).
  reflexivity.
Defined.

Lemma select_refuses_columns_witness :
  type_of test1 = "" /\
  select [VStr "name"; VNum 3] test1
  = (Throw (AssertionError "field name must be a string"),
     set_data (with_type "SELECT") test1).
Proof.
  split; [reflexivity |].
  apply (select_refuses_columns [VStr "name"; VNum 3] test1 eq_refl).
  apply Exists_cons_tl. apply Exists_cons_hd. intros s _. discriminate.
Defined.

End Instances.

(** ** The formatters and the schema *)

Module SchemaFacts.

Import Schema.

Lemma boolInputFormatter_range (v : value) :
  boolInputFormatter v = VNum 0 \/ boolInputFormatter v = VNum 1.
Proof.
  unfold boolInputFormatter.
  destruct v as [| | [] | n | s | l | p]; auto;
    repeat match goal with
           | |- context [if ?c then _ else _] => destruct c; auto
           end.
Qed.

(** [boolInputFormatter] returns 0 or 1, and a boolean survives the trip
    through [boolInputFormatter] and [boolOutputFormatter]. *)
Theorem bool_formatters_round_trip :
  (forall v, boolInputFormatter v = VNum 0 \/ boolInputFormatter v = VNum 1) /\
  (forall b, boolOutputFormatter (boolInputFormatter (VBool b)) = VBool b).
Proof.
  split; [exact boolInputFormatter_range |]. intros []; reflexivity.
Qed.

(** Every number, zero included, is formatted as 1; so formatting twice
    always gives 1, whatever the value was. *)
Theorem bool_input_formatter_on_numbers :
  (forall n, boolInputFormatter (VNum n) = VNum 1) /\
  (forall v, boolInputFormatter (boolInputFormatter v) = VNum 1).
Proof.
  assert (H : forall n, boolInputFormatter (VNum n) = VNum 1).
  { intro n. unfold boolInputFormatter. simpl toString. unfold num_string.
    destruct (Z.to_int n) as [u | u]; destruct u; reflexivity. }
  split; [exact H |].
  intro v. destruct (boolInputFormatter_range v) as [-> | ->]; apply H.
Qed.

(** *** The loops of [formatInput] and [formatOutput] *)

Lemma set_prop_fresh (name : string) (v : value) (o : list (string * value)) :
  ~ In name (map fst o) -> set_prop name v o = (o ++ [(name, v)])%list.
Proof.
  induction o as [| [k x] r IH]; simpl; intro H; [reflexivity |].
  destruct (String.eqb_spec k name) as [-> | Hne].
  - exfalso. apply H. left. reflexivity.
  - rewrite IH; [reflexivity |]. intro Hin. apply H. right. exact Hin.
Qed.

Lemma fold_thrown {A} (step : outcome (list (string * value)) -> A -> outcome (list (string * value)))
      (e : error) (l : list A) :
  (forall e x, step (Throw e) x = Throw e) ->
  fold_left step l (Throw e) = Throw e.
Proof.
  intro H. induction l as [| x r IH]; simpl; [reflexivity |]. rewrite H. exact IH.
Qed.

(** A loop that stores or skips each name builds the object [collect]
    describes. *)
Lemma fold_collect
      (step : outcome (list (string * value)) -> string -> outcome (list (string * value)))
      (g : string -> outcome (option value)) :
  (forall acc name,
      step (Return acc) name
      = match g name with
        | Return (Some v) => Return (assign_prop name v acc)
        | Return None => Return acc
        | Throw e => Throw e
        end) ->
  (forall e name, step (Throw e) name = Throw e) ->
  forall names acc,
    NoDup names -> ~ In "__proto__" names ->
    (forall k, In k names -> ~ In k (map fst acc)) ->
    fold_left step names (Return acc)
    = match collect g names with
      | Return ys => Return (acc ++ ys)%list
      | Throw e => Throw e
      end.
Proof.
  intros Hstep Hthrow names.
  induction names as [| name r IH]; intros acc Hnd Hp Hfresh; simpl.
  - rewrite app_nil_r. reflexivity.
  - inversion Hnd as [| ? ? Hn Hr]; subst.
    assert (Hp' : ~ In "__proto__" r) by (intro; apply Hp; right; assumption).
    rewrite Hstep. destruct (g name) as [[v |] | e].
    + unfold assign_prop.
      destruct (String.eqb_spec name "__proto__") as [-> | _];
        [exfalso; apply Hp; left; reflexivity |].
      rewrite set_prop_fresh by (apply Hfresh; left; reflexivity).
      rewrite IH; [| assumption | assumption |].
      * destruct (collect g r); [| reflexivity].
        rewrite <- app_assoc. reflexivity.
      * intros k Hk. rewrite map_app, in_app_iff. simpl.
        intros [Hin | [-> | []]].
        -- apply (Hfresh k); [right; assumption | assumption].
        -- apply Hn. exact Hk.
    + rewrite IH; [| assumption | assumption |].
      * destruct (collect g r); reflexivity.
      * intros k Hk. apply Hfresh. right. exact Hk.
    + apply fold_thrown. exact Hthrow.
Qed.

Lemma formatInput_collect (fields : list (string * field_info)) (data : value) :
  NoDup (map fst (props_of data)) -> ~ In "__proto__" (map fst (props_of data)) ->
  formatInput fields data
  = collect (input_entry fields data) (map fst (props_of data)).
Proof.
  intros Hnd Hp. unfold formatInput.
  rewrite (fold_collect _ (input_entry fields data)); try assumption.
  - destruct (collect _ _); reflexivity.
  - intros acc name. unfold formatInput_step, input_entry.
    destruct (fields_get fields name) as [info | |]; try reflexivity.
    destruct (output info); [| reflexivity].
    destruct (call_formatter (input info) (get data name)); reflexivity.
  - reflexivity.
  - intros k _ [].
Qed.

Lemma formatOutput_collect (fields : list (string * field_info)) (data : value) :
  NoDup (map fst (props_of data)) -> ~ In "__proto__" (map fst (props_of data)) ->
  formatOutput fields data
  = collect (output_entry fields data) (map fst (props_of data)).
Proof.
  intros Hnd Hp. unfold formatOutput.
  rewrite (fold_collect _ (output_entry fields data)); try assumption.
  - destruct (collect _ _); reflexivity.
  - intros acc name. unfold formatOutput_step, output_entry.
    destruct (fields_get fields name) as [[i [f |] en de] | |]; try reflexivity.
    destruct (f (get data name)); reflexivity.
  - reflexivity.
  - intros k _ [].
Qed.

Lemma collect_keys (g : string -> outcome (option value)) (keep : string -> bool)
      (names : list string) (ys : list (string * value)) :
  (forall name x, g name = Return x -> (if keep name then x <> None else x = None)) ->
  collect g names = Return ys ->
  map fst ys = filter keep names.
Proof.
  intro Hg. revert ys. induction names as [| name r IH]; simpl; intros ys H.
  - injection H as <-. reflexivity.
  - destruct (g name) as [x | e] eqn:E; [| discriminate].
    destruct (collect g r) as [zs | e]; [| discriminate].
    injection H as <-. specialize (Hg name x E).
    destruct (keep name); destruct x as [v |]; try congruence; simpl;
      rewrite (IH zs eq_refl); reflexivity.
Qed.

Lemma collect_in (g : string -> outcome (option value)) (names : list string)
      (ys : list (string * value)) (name : string) (v : value) :
  collect g names = Return ys -> In name names -> g name = Return (Some v) ->
  In (name, v) ys.
Proof.
  revert ys. induction names as [| k r IH]; simpl; intros ys H Hin Hg; [contradiction |].
  destruct (g k) as [x | e] eqn:E; [| discriminate].
  destruct (collect g r) as [zs | e]; [| discriminate].
  injection H as <-.
  destruct Hin as [-> | Hin].
  - rewrite Hg in E. injection E as <-. left. reflexivity.
  - specialize (IH zs eq_refl Hin Hg). destruct x; [right |]; exact IH.
Qed.

Lemma collect_map (g : string -> outcome (option value)) (h : string * value -> value)
      (p : list (string * value)) :
  (forall kv, In kv p -> g (fst kv) = Return (Some (h kv))) ->
  collect g (map fst p) = Return (map (fun kv => (fst kv, h kv)) p).
Proof.
  induction p as [| kv r IH]; simpl; intro H; [reflexivity |].
  rewrite (H kv (or_introl eq_refl)). rewrite IH; [reflexivity |].
  intros kv' Hin. apply H. right. exact Hin.
Qed.

Lemma get_own (p : list (string * value)) (kv : string * value) :
  NoDup (map fst p) -> In kv p -> get (VObj p) (fst kv) = snd kv.
Proof.
  intros Hnd Hin. unfold get. change (props_of (VObj p)) with p.
  destruct kv as [k v]. simpl. rewrite (lookup_unique p k v Hnd Hin). reflexivity.
Qed.

Lemma get_prop (data : value) (kv : string * value) :
  NoDup (map fst (props_of data)) -> In kv (props_of data) ->
  get data (fst kv) = snd kv.
Proof.
  intros Hnd Hin. unfold get.
  destruct kv as [k v]. simpl. rewrite (lookup_unique _ k v Hnd Hin). reflexivity.
Qed.

Lemma output_entry_stores (fields : list (string * field_info)) (data : value)
      (name : string) (x : option value) :
  output_entry fields data name = Return x -> x <> None.
Proof.
  unfold output_entry.
  destruct (fields_get fields name) as [[i [f |] en de] | |];
    try (intro H; injection H as <-; discriminate).
  destruct (f (get data name)); intro H; [injection H as <- |]; discriminate.
Qed.

Lemma output_entry_plain (fields : list (string * field_info)) (data : value)
      (name : string) :
  (forall info, declared fields name = Some info -> output info = None) ->
  output_entry fields data name = Return (Some (get data name)).
Proof.
  intro H. unfold output_entry, fields_get.
  destruct (declared fields name) as [[i o en de] |].
  - specialize (H _ eq_refl). simpl in H. subst o. reflexivity.
  - destruct (inherited name); reflexivity.
Qed.

Lemma input_entry_plain (fields : list (string * field_info)) (data : value)
      (name : string) :
  (forall info, declared fields name = Some info -> output info = None) ->
  input_entry fields data name
  = Return (if known fields name then Some (get data name) else None).
Proof.
  intro H. unfold input_entry, known, fields_get.
  destruct (declared fields name) as [[i o en de] |].
  - specialize (H _ eq_refl). simpl in H. subst o. reflexivity.
  - destruct (inherited name); reflexivity.
Qed.

Lemma filter_all {A} (l : list A) : filter (fun _ => true) l = l.
Proof. induction l as [| x r IH]; simpl; [| rewrite IH]; reflexivity. Qed.

(** [formatOutput] keeps every property of the data, in order: the object
    it returns has the names of the data, and a property whose field has no
    output formatter, declared or not, keeps its value. *)
Theorem formatOutput_keeps_every_property
        (fields : list (string * field_info)) (data : value)
        (q : list (string * value)) :
  NoDup (map fst (props_of data)) -> ~ In "__proto__" (map fst (props_of data)) ->
  formatOutput fields data = Return q ->
  map fst q = map fst (props_of data) /\
  (forall name,
      In name (map fst (props_of data)) ->
      (forall info, declared fields name = Some info -> output info = None) ->
      In (name, get data name) q).
Proof.
  intros Hnd Hp. rewrite (formatOutput_collect fields data Hnd Hp). intro H. split.
  - rewrite (collect_keys _ (fun _ => true) _ _ (output_entry_stores fields data) H).
    apply filter_all.
  - intros name Hin Hplain.
    apply (collect_in _ _ _ _ _ H Hin). apply output_entry_plain, Hplain.
Qed.

(** [formatInput] keeps the properties of the data whose names the schema
    declares (or that name a member of [Object.prototype]), in order, and
    drops the others. *)
Theorem formatInput_keeps_known_fields
        (fields : list (string * field_info)) (data : value)
        (q : list (string * value)) :
  NoDup (map fst (props_of data)) -> ~ In "__proto__" (map fst (props_of data)) ->
  formatInput fields data = Return q ->
  map fst q = filter (known fields) (map fst (props_of data)).
Proof.
  intros Hnd Hp. rewrite (formatInput_collect fields data Hnd Hp).
  apply collect_keys. intros name x. unfold input_entry, known.
  destruct (fields_get fields name) as [info | |].
  - destruct (output info).
    + destruct (call_formatter (input info) (get data name));
        intro H; [injection H as <- |]; discriminate.
    + intro H; injection H as <-; discriminate.
  - intro H; injection H as <-; discriminate.
  - intro H; injection H as <-; reflexivity.
Qed.

Lemma collect_filter (g : string -> outcome (option value)) (keep : string -> bool)
      (p : list (string * value)) :
  (forall kv, In kv p ->
     g (fst kv) = Return (if keep (fst kv) then Some (snd kv) else None)) ->
  collect g (map fst p) = Return (filter (fun kv => keep (fst kv)) p).
Proof.
  induction p as [| [k v] r IH]; simpl; intro H; [reflexivity |].
  pose proof (H (k, v) (or_introl eq_refl)) as Hkv. simpl in Hkv. rewrite Hkv.
  rewrite IH by (intros kv' Hin; apply H; right; exact Hin).
  destruct (keep k); reflexivity.
Qed.

(** With a schema none of whose fields has an output formatter (fields
    declared [true], or of type date) [formatOutput] returns a copy of the
    data and [formatInput] the data without the properties the schema does
    not know. *)
Theorem plain_schema_copies (fields : list (string * field_info)) (data : value) :
  (forall name info, declared fields name = Some info -> output info = None) ->
  NoDup (map fst (props_of data)) -> ~ In "__proto__" (map fst (props_of data)) ->
  formatOutput fields data = Return (props_of data) /\
  formatInput fields data
  = Return (filter (fun kv => known fields (fst kv)) (props_of data)).
Proof.
  intros Hplain Hnd Hp. split.
  - rewrite (formatOutput_collect fields data Hnd Hp).
    rewrite (collect_map _ snd).
    + f_equal. rewrite <- (map_id (props_of data)) at 2.
      apply map_ext. intros [k v]. reflexivity.
    + intros kv Hin. rewrite output_entry_plain by (apply Hplain).
      rewrite (get_prop data kv Hnd Hin). reflexivity.
  - rewrite (formatInput_collect fields data Hnd Hp).
    apply collect_filter. intros kv Hin.
    rewrite input_entry_plain by (apply Hplain).
    rewrite (get_prop data kv Hnd Hin). reflexivity.
Qed.

(** The trip through [formatInput] and [formatOutput] gives the object
    back when each of its properties is a declared field that either has
    no output formatter or is a bool field holding a boolean. *)
Theorem schema_round_trip (fields : list (string * field_info))
        (p : list (string * value)) :
  NoDup (map fst p) -> ~ In "__proto__" (map fst p) ->
  Forall (fun kv =>
            exists info, declared fields (fst kv) = Some info /\
              (output info = None \/
               (info = bool_field /\ exists b, snd kv = VBool b))) p ->
  exists q,
    formatInput fields (VObj p) = Return q /\ formatOutput fields (VObj q) = Return p.
Proof.
  intros Hnd Hp Hall. rewrite Forall_forall in Hall.
  pose (has_output := fun k => match declared fields k with
                               | Some {| output := Some _ |} => true
                               | _ => false
                               end).
  pose (h := fun kv : string * value =>
               if has_output (fst kv) then boolInputFormatter (snd kv) else snd kv).
  pose (h' := fun kv : string * value =>
                if has_output (fst kv) then boolOutputFormatter (snd kv) else snd kv).
  exists (map (fun kv => (fst kv, h kv)) p).
  assert (Hk : map fst (map (fun kv => (fst kv, h kv)) p) = map fst p).
  { rewrite map_map. reflexivity. }
  split.
  - rewrite formatInput_collect by assumption.
    change (props_of (VObj p)) with p.
    apply collect_map. intros kv Hin.
    destruct (Hall kv Hin) as [info [Hd Hc]].
    unfold input_entry, fields_get, h, has_output. rewrite Hd.
    rewrite (get_own p kv Hnd Hin).
    destruct Hc as [Hn | [-> _]].
    + destruct info as [i o en de]. simpl in Hn. subst o. reflexivity.
    + reflexivity.
  - rewrite formatOutput_collect;
      change (props_of (VObj (map (fun kv => (fst kv, h kv)) p)))
        with (map (fun kv => (fst kv, h kv)) p);
      [| rewrite Hk; assumption | rewrite Hk; assumption].
    rewrite (collect_map _ h').
    + f_equal. rewrite map_map. rewrite <- (map_id p) at 2.
      apply map_ext_in. intros [k v] Hin. simpl.
      destruct (Hall (k, v) Hin) as [info [Hd Hc]]. simpl in Hd.
      unfold h', h, has_output. simpl. rewrite Hd.
      destruct Hc as [Hn | [-> [b Hb]]].
      * destruct info as [i o en de]. simpl in Hn. subst o. reflexivity.
      * simpl in Hb. subst v. simpl. destruct b; reflexivity.
    + intros kv' Hin'.
      assert (Hg : get (VObj (map (fun kv => (fst kv, h kv)) p)) (fst kv') = snd kv').
      { apply get_own; [rewrite Hk; assumption | exact Hin']. }
      apply in_map_iff in Hin'. destruct Hin' as [kv [<- Hin]]. simpl in Hg |- *.
      destruct (Hall kv Hin) as [info [Hd Hc]].
      unfold output_entry, fields_get, h', has_output. simpl. rewrite Hd, Hg.
      destruct Hc as [Hn | [-> _]].
      * destruct info as [i o en de]. simpl in Hn. subst o. reflexivity.
      * reflexivity.
Qed.

Lemma lower_idempotent (c : ascii) : lower (lower c) = lower c.
Proof. destruct c as [[] [] [] [] [] [] [] []]; reflexivity. Qed.

Lemma toLowerCase_idempotent (s : string) : toLowerCase (toLowerCase s) = toLowerCase s.
Proof.
  induction s as [| c r IH]; simpl; [reflexivity |].
  rewrite lower_idempotent, IH. reflexivity.
Qed.

(** The type of a field is read without regard to letter case: a type is
    supported exactly when, in lower case, it is json, bool or date, and it
    then gives the configuration its lower-case spelling gives; any other
    type is refused with an error that names it as written. *)
Theorem field_type_ignores_case
        (JSON_stringify : value -> value) (JSON_parse : string -> value + string)
        (Date_new : value -> value) (type : string) :
  let by_type := getFieldInfoByType JSON_stringify JSON_parse Date_new in
  if ((toLowerCase type =? "json") || (toLowerCase type =? "bool")
      || (toLowerCase type =? "date"))%string
  then exists info, by_type type = Return info /\ by_type (toLowerCase type) = Return info
  else by_type type = Throw (TypeError ("not support type " ++ quoted type)).
Proof.
  unfold getFieldInfoByType. rewrite toLowerCase_idempotent.
  destruct (toLowerCase type =? "json")%string; simpl; [eexists; split; reflexivity |].
  destruct (toLowerCase type =? "bool")%string; simpl; [eexists; split; reflexivity |].
  destruct (toLowerCase type =? "date")%string; simpl; [eexists; split; reflexivity |].
  reflexivity.
Qed.

(** *** Instances *)

Lemma nodup2 (a b : string) : a <> b -> NoDup [a; b].
Proof.
  intro H. constructor.
  - intros [E | []]. apply H. symmetry. exact E.
  - constructor; [intros [] | constructor].
Defined.

Lemma no_proto2 (a b : string) :
  a <> "__proto__" -> b <> "__proto__" -> ~ In "__proto__" [a; b].
Proof. intros Ha Hb [E | [E | []]]; [apply Ha | apply Hb]; exact E. Defined.

Lemma formatOutput_keeps_every_property_witness :
  formatOutput id_active (VObj [("active", VNum 1); ("extra", VStr "x")])
    = Return [("active", VBool true); ("extra", VStr "x")] /\
  map fst [("active", VBool true); ("extra", VStr "x")] = ["active"; "extra"].
Proof.
  split; [reflexivity |].
  apply (formatOutput_keeps_every_property id_active
           (VObj [("active", VNum 1); ("extra", VStr "x")])
           [("active", VBool true); ("extra", VStr "x")]).
  - apply nodup2. discriminate.
  - apply no_proto2; discriminate.
  - reflexivity.
Defined.

Lemma formatInput_keeps_known_fields_witness :
  formatInput id_active (VObj [("active", VStr "off"); ("extra", VStr "x")])
    = Return [("active", VNum 0)] /\
  map fst [("active", VNum 0)] = ["active"].
Proof.
  split; [reflexivity |].
  apply (formatInput_keeps_known_fields id_active
           (VObj [("active", VStr "off"); ("extra", VStr "x")]) [("active", VNum 0)]).
  - apply nodup2. discriminate.
  - apply no_proto2; discriminate.
  - reflexivity.
Defined.

Lemma plain_schema_copies_witness :
  formatOutput [("id", getDefaultFieldInfo)] (VObj [("id", VNum 7); ("extra", VNull)])
    = Return [("id", VNum 7); ("extra", VNull)] /\
  formatInput [("id", getDefaultFieldInfo)] (VObj [("id", VNum 7); ("extra", VNull)])
    = Return [("id", VNum 7)].
Proof.
  apply (plain_schema_copies [("id", getDefaultFieldInfo)]
           (VObj [("id", VNum 7); ("extra", VNull)])).
  - intros name info. simpl. destruct (name =? "id")%string; [| discriminate].
    intro H. injection H as <-. reflexivity.
  - apply nodup2. discriminate.
  - apply no_proto2; discriminate.
Defined.

Lemma schema_round_trip_witness :
  exists q,
    formatInput id_active (VObj [("id", VNum 7); ("active", VBool false)]) = Return q /\
    formatOutput id_active (VObj q) = Return [("id", VNum 7); ("active", VBool false)].
Proof.
  apply (schema_round_trip id_active [("id", VNum 7); ("active", VBool false)]).
  - apply nodup2. discriminate.
  - apply no_proto2; discriminate.
  - constructor; [| constructor; [| constructor]].
    + exists getDefaultFieldInfo. split; [reflexivity | left; reflexivity].
    + exists bool_field. split; [reflexivity |].
      right. split; [reflexivity | exists false; reflexivity].
Defined.

End SchemaFacts.

(** ** Payloads of [update] and [insert] *)

Section Payloads.

Context {U : Utils}.

(** On a builder whose kind is unset, [update] with an array or object
    stores the helper's rendering of it and does not read its second
    argument; with a non-empty string it stores the string with the values
    substituted, positionally for an array, by name for any other object,
    positionally with no value when the second argument is missing or
    falsy.  Any other second argument makes it throw, the kind being set by
    then. *)
Theorem update_payload (b : QueryBuilder) :
  type_of b = "" ->
  let store := fun s => set_data (fun d => with_update (Some s) (with_type "UPDATE" d)) b in
  (forall data values,
      truthy data = true -> typeof data = "object" ->
      update data values b = (Return tt, store (sqlUpdateString data))) /\
  (forall c r values,
      let tpl := String c r in
      update (VStr tpl) values b
      = if truthy values then
          match values with
          | VArr l => (Return tt, store (sqlFormat tpl l))
          | VObj p => (Return tt, store (sqlFormatObject tpl p))
          | _ => (Throw (AssertionError "second parameter must be an array or object"),
                  set_data (with_type "UPDATE") b)
          end
        else (Return tt, store (sqlFormat tpl []))).
Proof.
  unfold type_of. destruct b as [t d]. destruct d. simpl. intros ->. split.
  - intros data values Ht Ho.
    unfold update, bind, assert_type_unset, this_data, assert_ok, assign, ret, set_data.
    simpl. rewrite Ht, Ho. reflexivity.
  - intros c r values.
    unfold update, format, bind, assert_type_unset, this_data, assert_ok, assign, ret,
      throw, set_data.
    simpl. destruct values as [| | [] | n | s | l | p]; simpl; try reflexivity.
    + destruct (n =? 0) eqn:E; simpl; rewrite ?E; reflexivity.
    + destruct s; reflexivity.
Qed.

Lemma to_uint_nonnil (n : nat) : Nat.to_uint n <> Decimal.Nil.
Proof.
  rewrite <- (DecimalNat.Unsigned.of_to n) at 1.
  rewrite DecimalNat.Unsigned.to_of. apply DecimalFacts.unorm_nonnil.
Qed.

Lemma index_key_inj (i j : nat) : index_key i = index_key j -> i = j.
Proof.
  unfold index_key. intro H. apply (f_equal NilZero.uint_of_string) in H.
  rewrite !NilZero.usu in H by apply to_uint_nonnil.
  injection H as H. apply DecimalNat.Unsigned.to_uint_inj. exact H.
Qed.

Lemma lookup_index (row : list value) (s i : nat) :
  lookup (index_key (s + i)) (combine (map index_key (seq s (List.length row))) row)
  = nth_error row i.
Proof.
  revert s i. induction row as [| x r IH]; intros s i; simpl.
  - destruct i; reflexivity.
  - destruct i as [| j].
    + rewrite Nat.add_0_r, String.eqb_refl. reflexivity.
    + destruct (String.eqb_spec (index_key (s + S j)) (index_key s)) as [E | _].
      * apply index_key_inj in E. lia.
      * rewrite Nat.add_succ_r. apply (IH (S s) j).
Qed.

Lemma array_keys (row : list value) :
  map fst (array_props row) = map index_key (seq 0 (List.length row)).
Proof.
  unfold array_props.
  assert (G : forall (ks : list string) (l : list value),
             List.length ks = List.length l -> map fst (combine ks l) = ks).
  { induction ks as [| k ks IH]; intros [| x l]; simpl; intro H;
      try discriminate; [reflexivity |]. rewrite IH by lia. reflexivity. }
  apply G. rewrite length_map, length_seq. reflexivity.
Qed.

Lemma map_nth_all {A B} (f : A -> B) (l : list A) (d : A) :
  map (fun i => f (nth i l d)) (seq 0 (List.length l)) = map f l.
Proof.
  induction l as [| x r IH]; simpl; [reflexivity |].
  rewrite <- seq_shift, map_map. rewrite IH. reflexivity.
Qed.

Lemma assert_type_unset_passes (b : QueryBuilder) :
  type_of b = "" -> assert_type_unset b = (Return tt, b).
Proof.
  unfold type_of. intro H.
  unfold assert_type_unset, bind, this_data, assert_ok. rewrite H. reflexivity.
Qed.

Lemma mapM_all {A B} (f : A -> M B) (g : A -> B) (l : list A) :
  (forall x, In x l -> forall b, f x b = (Return (g x), b)) ->
  forall b, mapM f l b = (Return (map g l), b).
Proof.
  induction l as [| x r IH]; intros H b; simpl; [reflexivity |].
  unfold bind. rewrite (H x (or_introl eq_refl)).
  rewrite IH by (intros y Hy; apply H; right; exact Hy). reflexivity.
Qed.

Lemma array_get (row : list value) (i : nat) :
  (i < List.length row)%nat ->
  lookup (index_key i) (props_of (VArr row)) = Some (nth i row VUndefined).
Proof.
  intro H. change (props_of (VArr row)) with (array_props row). unfold array_props.
  pose proof (lookup_index row 0 i) as E. simpl in E. rewrite E.
  apply nth_error_nth'. exact H.
Qed.

(** The check of one row given as an array as long as the column list. *)
Lemma row_check (row : list value) (n : nat) (b : QueryBuilder) :
  List.length row = n ->
  mapM (fun field =>
          assert_ok (has_property field (VArr row))
                    ("every item of data array must have field " ++ quoted field) ;;
          ret (sqlEscape (get (VArr row) field)))
       (map index_key (seq 0 n)) b
  = (Return (map sqlEscape row), b).
Proof.
  intros <-.
  rewrite (mapM_all _ (fun field => sqlEscape (get (VArr row) field))).
  - f_equal. f_equal. rewrite map_map. rewrite <- (map_nth_all sqlEscape row VUndefined).
    apply map_ext_in. intros i Hi. apply in_seq in Hi.
    unfold get. rewrite array_get by lia. reflexivity.
  - intros field Hin b0. apply in_map_iff in Hin. destruct Hin as [i [<- Hi]].
    apply in_seq in Hi. unfold bind, assert_ok, has_property.
    rewrite array_get by lia. reflexivity.
Qed.

(** [insert] names the columns after the properties of the first row and
    reads each row by position: on a builder whose kind is unset, rows
    given as arrays of the same length are accepted, the columns are the
    indices of the first row and each row is rendered from its cells in
    order, the rows joined by a comma and a line feed. *)
Theorem insert_rows_by_index (row : list value) (rows : list (list value))
        (b : QueryBuilder) :
  type_of b = "" ->
  Forall (fun r => List.length r = List.length row) rows ->
  insert (VArr (map VArr (row :: rows))) b
  = (Return tt,
     set_data (fun d =>
       with_insert
         (Some ("(" ++ concat ", " (map sqlEscapeId
                                      (map index_key (seq 0 (List.length row))))
                  ++ ") VALUES "
                  ++ concat ("," ++ nl)
                       (map (fun r => "(" ++ concat ", " (map sqlEscape r) ++ ")")
                            (row :: rows))))
         (with_type "INSERT" d)) b).
Proof.
  intros Ht Hall. unfold insert.
  rewrite (bind_return _ _ b b tt) by (apply assert_type_unset_passes; exact Ht).
  rewrite (bind_return _ _ b (set_data (with_type "INSERT") b) tt) by reflexivity.
  set (b1 := set_data (with_type "INSERT") b).
  rewrite (bind_return _ _ b1 b1 tt) by reflexivity.
  rewrite (bind_return _ _ b1 b1 tt) by reflexivity.
  rewrite (bind_return _ _ b1 b1 (map VArr (row :: rows))).
  2: { rewrite (bind_return _ _ b1 b1 tt); [reflexivity |]. unfold assert_ok.
       replace (1 <=? Z.of_nat (List.length (map VArr (row :: rows)))) with true;
         [reflexivity |].
       symmetry. apply Z.leb_le. simpl List.length. lia. }
  rewrite (bind_return _ _ b1 b1 (map index_key (seq 0 (List.length row)))).
  2: { change (nth 0 (map VArr (row :: rows)) VUndefined) with (VArr row).
       change (own_props (VArr row)) with (Some (array_props row)).
       cbv beta iota. rewrite array_keys. reflexivity. }
  rewrite (bind_return _ _ b1 b1
             (map (fun r => "(" ++ concat ", " (map sqlEscape r) ++ ")") (row :: rows))).
  - reflexivity.
  - rewrite <- (map_map VArr (fun item => "(" ++ concat ", " (map sqlEscape
                                              (match item with
                                               | VArr r => r
                                               | _ => []
                                               end)) ++ ")")).
    apply mapM_all. intros item Hin b0.
    assert (Hr : exists r, item = VArr r /\ List.length r = List.length row).
    { apply in_map_iff in Hin. destruct Hin as [r [<- Hin]].
      exists r. split; [reflexivity |].
      destruct Hin as [<- | Hin]; [reflexivity |].
      rewrite Forall_forall in Hall. apply Hall, Hin. }
    destruct Hr as [r [-> Hr]].
    rewrite (bind_return _ _ b0 b0 tt) by reflexivity.
    rewrite (bind_return _ _ b0 b0 (map sqlEscape r)); [reflexivity |].
    rewrite length_map, length_map, length_seq.
    apply row_check. exact Hr.
Qed.

End Payloads.

Section PayloadInstances.

#[local] Existing Instance model_utils.

Lemma update_payload_witness :
  type_of test1 = "" /\
  update a123_b456 VUndefined test1
  = (Return tt,
     set_data (fun d => with_update (Some "`a`=123, `b`=456") (with_type "UPDATE" d)) test1).
Proof.
  split; [reflexivity |].
  rewrite (proj1 (update_payload test1 eq_refl) a123_b456 VUndefined eq_refl eq_refl).
  reflexivity.
Defined.

Lemma insert_rows_by_index_witness :
  type_of test1 = "" /\
  result (insert (VArr [VArr [VNum 1; VNum 2]; VArr [VNum 3; VNum 4]]) ;; build) test1
  = Return ("INSERT INTO `test1` (`0`, `1`) VALUES (1, 2)," ++ nl ++ "(3, 4)").
Proof.
  split; [reflexivity |].
  unfold result.
  rewrite (bind_return _ _ test1 _ tt
             (insert_rows_by_index [VNum 1; VNum 2] [[VNum 3; VNum 4]] test1 eq_refl
                (Forall_cons [VNum 3; VNum 4] eq_refl (Forall_nil _)))).
  reflexivity.
Defined.

End PayloadInstances.

(** ** The clause the pagination calls store *)

(** Whatever rows [skip] and [limit] are handed, in either order, the
    clause they leave is the helper applied twice to the missing [skip]
    property and the clause stored before: the rows recorded do not reach
    it. *)
Lemma pagination_clause_ignores_rows {U : Utils} (b : QueryBuilder) (n m : Z) :
  0 <= n -> 0 <= m ->
  let twice := sqlLimitString VUndefined
                 (VStr (sqlLimitString VUndefined (VStr (d_limit (_data b))))) in
  d_limit (_data (after (skip n ;; limit m) b)) = twice /\
  d_limit (_data (after (limit m ;; skip n) b)) = twice.
Proof.
  intros Hn Hm. unfold after. split.
  - rewrite (bind_return _ _ _ _ _ (skip_stores b n Hn)).
    rewrite limit_stores by assumption. reflexivity.
  - rewrite (bind_return _ _ _ _ _ (limit_stores b m Hm)).
    rewrite skip_stores by assumption. reflexivity.
Qed.

Section Pagination.

#[local] Existing Instance model_utils.

(** C5: [skip(10)] and [limit(20)], in either order, record the rows and
    leave the empty clause, not the clause the helper computes from ten
    rows skipped and twenty returned: the SELECT built has no LIMIT
    clause. *)
Theorem pagination_clause_not_recomputed :
  let q1 := select name_age ;; where_ a123_b456 VUndefined ;; skip 10 ;; limit 20 in
  let q2 := select name_age ;; where_ a123_b456 VUndefined ;; limit 20 ;; skip 10 in
  sqlLimitString (VNum 10) (VNum 20) = "LIMIT 10,20" /\
  (d_skipRows (_data (after q1 test1)) = 10 /\
   d_limitRows (_data (after q1 test1)) = 20 /\
   d_limit (_data (after q1 test1)) = "") /\
  (d_skipRows (_data (after q2 test1)) = 10 /\
   d_limitRows (_data (after q2 test1)) = 20 /\
   d_limit (_data (after q2 test1)) = "") /\
  result (q1 ;; build) test1
    = Return "SELECT `name`, `age` FROM `test1` WHERE `a`=123 AND `b`=456" /\
  result (q2 ;; build) test1
    = Return "SELECT `name`, `age` FROM `test1` WHERE `a`=123 AND `b`=456".
Proof. repeat split; vm_compute; reflexivity. Qed.

End Pagination.
